(** * Andookie: card identification, matching and pricing

    A shallow embedding of the text-line processor (the route behind
    POST /api/cards/process-text: [MOCK_CARD_DATABASE], [CONDITIONS],
    [parseCardLine], [POST]), of the OCR service ([OCRService]:
    [validateImage], [extractCardInfo], [normalizeCondition],
    [calculateConfidence], [cleanOCRText]) and of the utilities of
    lib/errors.ts (error classes, [handleError], [getUserFriendlyMessage],
    the validators and [retryWithBackoff]).

    Modelling conventions.
    - JavaScript numbers are IEEE 754 binary64 values: they are Rocq's
      primitive floats, so every product, sum and quotient below is the very
      operation the engine performs.  Small integer counters (the match
      score) are kept in [nat] and converted when they reach a division.
    - A string is a sequence of UTF-16 code units below 256: each character
      of a Rocq string stands for the code unit of the same number (U+0000 to
      U+00FF).  On these, [trim] and the class [\s] take tab, LF, VT, FF, CR,
      space and the no-break space U+00A0, and [toLowerCase] maps A-Z and the
      capital letters U+00C0 to U+00DE (the sign U+00D7 apart) to their small
      forms.  A text that holds a code unit of 256 or more is outside the
      model.
    - Amounts the specification writes in decimal are rationals ([Q]); a
      Number equals such an amount when it is the binary64 value nearest to
      it, which is what the decimal literal denotes in the source.
    - [Math.random] is the only effect of the text path.  It is modelled by
      explicit state passing over a stream of future draws. *)

From Stdlib Require Import Bool Arith List ZArith QArith Qround Lia.
From Stdlib Require Import Ascii String.
From Stdlib Require Import Strings.Byte.
From Stdlib Require Import Floats.
Import ListNotations.

Set Warnings "-inexact-float".

Local Open Scope string_scope.
Local Open Scope bool_scope.
Local Open Scope nat_scope.

(* ================================================================== *)
(** ** JavaScript string primitives *)

Module JsString.

(** Truthiness of a string: non-empty. *)
Definition truthy (s : string) : bool :=
  match s with
  | EmptyString => false
  | String _ _ => true
  end.

(** White space and line terminators, as [String.prototype.trim] and the
    class [\s] take them, among the code units below 256: U+0009 to U+000D,
    the space and the no-break space U+00A0. *)
Definition isWhiteSpace (c : ascii) : bool :=
  let n := nat_of_ascii c in
  ((9 <=? n) && (n <=? 13)) || (n =? 32) || (n =? 160).

Fixpoint trimStart (s : string) : string :=
  match s with
  | EmptyString => EmptyString
  | String c s' => if isWhiteSpace c then trimStart s' else s
  end.

Fixpoint trimEnd (s : string) : string :=
  match s with
  | EmptyString => EmptyString
  | String c s' =>
      match trimEnd s' with
      | EmptyString => if isWhiteSpace c then EmptyString else String c EmptyString
      | r => String c r
      end
  end.

Definition trim (s : string) : string := trimEnd (trimStart s).

(** The small form of a code unit below 256: A-Z, and U+00C0 to U+00DE
    except the multiplication sign U+00D7, move up by 32. *)
Definition lowerChar (c : ascii) : ascii :=
  let n := nat_of_ascii c in
  if ((65 <=? n) && (n <=? 90))
     || ((192 <=? n) && (n <=? 222) && negb (n =? 215))
  then ascii_of_nat (n + 32) else c.

Fixpoint toLowerCase (s : string) : string :=
  match s with
  | EmptyString => EmptyString
  | String c s' => String (lowerChar c) (toLowerCase s')
  end.

(** [startsWith s k]: [k] is a prefix of [s]. *)
Fixpoint startsWith (s k : string) {struct k} : bool :=
  match k with
  | EmptyString => true
  | String b k' =>
      match s with
      | EmptyString => false
      | String a s' => Ascii.eqb a b && startsWith s' k'
      end
  end.

(** [includes s k] is [s.includes(k)]: [k] occurs in [s] as a contiguous
    substring.  The empty string occurs everywhere. *)
Fixpoint includes (s k : string) : bool :=
  startsWith s k ||
  match s with
  | EmptyString => false
  | String _ s' => includes s' k
  end.

(** [split sep s] is [s.split(sep)] for a one-character separator: the
    pieces between separators, empty pieces included; the empty string
    gives one empty piece. *)
Fixpoint split (sep : ascii) (s : string) : list string :=
  match s with
  | EmptyString => [EmptyString]
  | String c s' =>
      if Ascii.eqb c sep then EmptyString :: split sep s'
      else match split sep s' with
           | piece :: rest => String c piece :: rest
           | [] => [String c EmptyString]
           end
  end.

(** [replaceChar c s] is [s.replace(c, '')] for a one-character pattern:
    the first occurrence is removed. *)
Fixpoint replaceChar (c : ascii) (s : string) : string :=
  match s with
  | EmptyString => EmptyString
  | String a s' => if Ascii.eqb a c then s' else String a (replaceChar c s')
  end.

(** *** The regular expression [/(\d+\/\d+|#\d+)/] *)

Definition isDigit (c : ascii) : bool :=
  let n := nat_of_ascii c in (48 <=? n) && (n <=? 57).

(** The longest run of digits at the head of [s], and what follows it. *)
Fixpoint spanDigits (s : string) : string * string :=
  match s with
  | EmptyString => (EmptyString, EmptyString)
  | String c s' =>
      if isDigit c
      then let '(d, r) := spanDigits s' in (String c d, r)
      else (EmptyString, s)
  end.

(** [\d+\/\d+] anchored at the head of [s].  Both groups are greedy; giving
    digits back never helps, since the character after a shorter run is a
    digit and not the slash. *)
Definition matchFractionAt (s : string) : option string :=
  let '(d1, r) := spanDigits s in
  if truthy d1 then
    match r with
    | String "/"%char r' =>
        let '(d2, _) := spanDigits r' in
        if truthy d2 then Some (d1 ++ "/" ++ d2) else None
    | _ => None
    end
  else None.

(** [#\d+] anchored at the head of [s]. *)
Definition matchHashAt (s : string) : option string :=
  match s with
  | String "#"%char r =>
      let '(d, _) := spanDigits r in
      if truthy d then Some (String "#"%char d) else None
  | _ => None
  end.

(** [s.match(/(\d+\/\d+|#\d+)/)]: the leftmost position where one of the
    alternatives matches, the first alternative tried first; the result is
    capture group 1, which is the whole match. *)
Fixpoint matchCardNumber (s : string) : option string :=
  match matchFractionAt s with
  | Some m => Some m
  | None =>
      match matchHashAt s with
      | Some m => Some m
      | None =>
          match s with
          | EmptyString => None
          | String _ s' => matchCardNumber s'
          end
      end
  end.

(** *** Character classes and the replacements of [cleanOCRText] *)

(** [\w]: a letter, a digit or the underscore. *)
Definition isWordChar (c : ascii) : bool :=
  let n := nat_of_ascii c in
  ((65 <=? n) && (n <=? 90)) || ((97 <=? n) && (n <=? 122))
  || ((48 <=? n) && (n <=? 57)) || (n =? 95).

(** [s.replace(/[^...]/g, '')] for a negated character class whose members
    are given by [keep]: the characters outside the class are dropped. *)
Fixpoint removeChars (keep : ascii -> bool) (s : string) : string :=
  match s with
  | EmptyString => EmptyString
  | String c s' =>
      if keep c then String c (removeChars keep s') else removeChars keep s'
  end.

(** [s.replace(/\s+/g, ' ')]: every maximal run of white space becomes one
    space.  [inRun] tells that the previous character belonged to the run
    being replaced. *)
Fixpoint collapseFrom (inRun : bool) (s : string) : string :=
  match s with
  | EmptyString => EmptyString
  | String c s' =>
      if isWhiteSpace c
      then if inRun then collapseFrom true s'
           else String " "%char (collapseFrom true s')
      else String c (collapseFrom false s')
  end.

Definition collapseWhiteSpace (s : string) : string := collapseFrom false s.

End JsString.

(* ================================================================== *)
(** ** JavaScript number primitives *)

Module JsNumber.

Local Open Scope float_scope.

(** An integer as a Number (exact below 2^53). *)
Definition ofZ (z : Z) : float :=
  match z with
  | Z0 => 0
  | Zpos _ => PrimFloat.of_uint63 (Uint63.of_Z z)
  | Zneg p => - PrimFloat.of_uint63 (Uint63.of_Z (Zpos p))
  end.

Definition ofNat (n : nat) : float := ofZ (Z.of_nat n).

(** [Math.round]: the nearest integer, a tie going towards +infinity.
    NaN, the infinities and the zeros are returned as they are; a value
    in [-0.5, 0) rounds to -0.  The rounding is exact: the float is decoded
    to its mantissa and exponent and [floor(x + 1/2)] is taken over Z. *)
Definition Math_round (x : float) : float :=
  match Prim2SF x with
  | S754_finite s m e =>
      if (0 <=? e)%Z then x
      else
        let den := Z.pow 2 (- e) in
        let num := if s then Z.opp (Zpos m) else Zpos m in
        let n := Z.div (2 * num + den) (2 * den) in
        if (n =? 0)%Z then (if s then -0 else 0) else ofZ n
  | _ => x
  end.

(** The exact value of a finite Number; [None] for NaN and the
    infinities. *)
Definition exactValue (x : float) : option Q :=
  match Prim2SF x with
  | S754_zero _ => Some (inject_Z 0)
  | S754_finite s m e =>
      let n := if s then Zneg m else Zpos m in
      Some (if (0 <=? e)%Z then inject_Z (n * Z.pow 2 e)
            else Qmake n (Z.to_pos (Z.pow 2 (- e))))
  | _ => None
  end.

(** The Number a decimal amount denotes: the binary64 value nearest to it.
    For a fraction in lowest terms whose numerator and denominator are below
    2^53 it is the quotient of the two, which binary64 division rounds
    correctly. *)
Definition ofDecimal (q : Q) : float :=
  let q := Qred q in ofZ (Qnum q) / ofZ (Zpos (Qden q)).

(** [Math.min] of two Numbers. *)
Definition Math_min (x y : float) : float :=
  if PrimFloat.is_nan x then x
  else if PrimFloat.is_nan y then y
  else if x <? y then x
  else if y <? x then y
  else if PrimFloat.get_sign x then x else y.

(** [Math.pow(2, n)] for a natural exponent: doubling is exact in binary64
    and overflows to Infinity. *)
Fixpoint Math_pow2 (n : nat) : float :=
  match n with
  | O => 1
  | S n' => 2 * Math_pow2 n'
  end.

End JsNumber.

(* ================================================================== *)
(** ** The effect of the text path: [Math.random] *)

Module Rand.

(** The draws [Math.random()] will return, in order; each lies in [0, 1). *)
Definition source := nat -> float.

Definition M (A : Type) : Type := source -> A * source.

Definition ret {A} (a : A) : M A := fun g => (a, g).

Definition bind {A B} (m : M A) (k : A -> M B) : M B :=
  fun g => let '(a, g') := m g in k a g'.

(** One call of [Math.random()]: the head of the stream is consumed. *)
Definition Math_random : M float :=
  fun g => (g 0, fun n => g (S n)).

End Rand.

Notation "x <- m ;; k" := (Rand.bind m (fun x => k))
  (at level 61, m at next level, right associativity).

(* ================================================================== *)
(** ** types.ts *)

Inductive CardCondition :=
| Mint
| NearMint
| LightlyPlayed
| ModeratelyPlayed
| HeavilyPlayed.

Definition CardCondition_eqb (a b : CardCondition) : bool :=
  match a, b with
  | Mint, Mint | NearMint, NearMint | LightlyPlayed, LightlyPlayed
  | ModeratelyPlayed, ModeratelyPlayed | HeavilyPlayed, HeavilyPlayed => true
  | _, _ => false
  end.

(** An element of [MOCK_CARD_DATABASE]. *)
Module DbEntry.
Record t := mk {
  id : Z;
  name : string;
  set : string;
  number : string;
  marketPrice : float;
  variants : list CardCondition
}.
End DbEntry.

(** The object [parseCardLine] returns for a matched line. *)
Module Card.
Record t := mk {
  id : float;
  name : string;
  set : string;
  number : string;
  condition : CardCondition;
  marketPrice : float;
  ourOffer : float;
  confidence : float;
  originalText : string
}.
End Card.

(* ================================================================== *)
(** ** The text route: POST /api/cards/process-text *)

Module ProcessText.

Import JsString JsNumber.

Definition MOCK_CARD_DATABASE : list DbEntry.t := [
  DbEntry.mk 1 "Charizard" "Base Set" "4/102" 450.00
    [NearMint; LightlyPlayed; ModeratelyPlayed; HeavilyPlayed];
  DbEntry.mk 2 "Pikachu VMAX" "Vivid Voltage" "044/185" 85.00
    [NearMint; LightlyPlayed; ModeratelyPlayed; HeavilyPlayed];
  DbEntry.mk 3 "Blastoise" "Base Set" "2/102" 180.00
    [NearMint; LightlyPlayed; ModeratelyPlayed; HeavilyPlayed];
  DbEntry.mk 4 "Venusaur" "Base Set" "15/102" 120.00
    [NearMint; LightlyPlayed; ModeratelyPlayed; HeavilyPlayed];
  DbEntry.mk 5 "Pikachu" "Base Set" "58/102" 35.00
    [NearMint; LightlyPlayed; ModeratelyPlayed; HeavilyPlayed];
  DbEntry.mk 6 "Alakazam" "Base Set" "1/102" 90.00
    [NearMint; LightlyPlayed; ModeratelyPlayed; HeavilyPlayed]
].

(** [Object.entries(CONDITIONS)]: the keys are not integer-like, so they are
    enumerated in the order the literal lists them. *)
Definition CONDITIONS : list (string * CardCondition) := [
  ("mint", Mint);
  ("near mint", NearMint);
  ("nm", NearMint);
  ("lightly played", LightlyPlayed);
  ("lp", LightlyPlayed);
  ("moderately played", ModeratelyPlayed);
  ("mp", ModeratelyPlayed);
  ("heavily played", HeavilyPlayed);
  ("hp", HeavilyPlayed);
  ("damaged", HeavilyPlayed)
].

(** The condition loop with its [break]: the first keyword of [entries] that
    occurs in [lowerLine] decides; [condition] keeps its value otherwise. *)
Fixpoint conditionLoop (entries : list (string * CardCondition))
    (lowerLine : string) (condition : CardCondition) : CardCondition :=
  match entries with
  | [] => condition
  | (keyword, conditionName) :: rest =>
      if includes lowerLine keyword then conditionName
      else conditionLoop rest lowerLine condition
  end.

Definition extractCondition (lowerLine : string) : CardCondition :=
  conditionLoop CONDITIONS lowerLine NearMint.

(** [cardNumber]: the first [123/456] or [#123] of the trimmed line, the
    hash removed; empty when there is none. *)
Definition extractCardNumber (trimmedLine : string) : string :=
  match matchCardNumber trimmedLine with
  | Some m => replaceChar "#"%char m
  | None => EmptyString
  end.

(** The body of the catalog loop up to the comparison: the score of one
    card against the line. *)
Definition scoreCard (lowerLine cardNumber : string) (card : DbEntry.t) : nat :=
  let score := 0 in
  let score :=
    if includes lowerLine (toLowerCase (DbEntry.name card))
    then score + 3 else score in
  let score :=
    if includes lowerLine (toLowerCase (DbEntry.set card))
    then score + 2 else score in
  let score :=
    if truthy cardNumber && includes (DbEntry.number card) cardNumber
    then score + 2 else score in
  let cardNameWords := split " "%char (toLowerCase (DbEntry.name card)) in
  fold_left
    (fun score word => if includes lowerLine word then score + 1 else score)
    cardNameWords score.

(** One iteration of the catalog loop on [(bestMatch, highestScore)]. *)
Definition matchStep (lowerLine cardNumber : string)
    (st : option DbEntry.t * nat) (card : DbEntry.t) : option DbEntry.t * nat :=
  let '(bestMatch, highestScore) := st in
  let score := scoreCard lowerLine cardNumber card in
  if highestScore <? score then (Some card, score) else (bestMatch, highestScore).

Definition findBestMatch (db : list DbEntry.t) (lowerLine cardNumber : string)
    : option DbEntry.t * nat :=
  fold_left (matchStep lowerLine cardNumber) db (None, 0).

Definition conditionMultipliers (c : CardCondition) : float :=
  match c with
  | Mint => 1.1
  | NearMint => 1.0
  | LightlyPlayed => 0.8
  | ModeratelyPlayed => 0.6
  | HeavilyPlayed => 0.4
  end%float.

(** [parseCardLine], over the catalog [db] ([MOCK_CARD_DATABASE] in the
    source); [None] is JavaScript's [null]. *)
Definition parseCardLineIn (db : list DbEntry.t) (line : string)
    : Rand.M (option Card.t) :=
  let trimmedLine := trim line in
  if negb (truthy trimmedLine) then Rand.ret None else
  let lowerLine := toLowerCase trimmedLine in
  let condition := extractCondition lowerLine in
  let cardNumber := extractCardNumber trimmedLine in
  let '(bestMatch, highestScore) := findBestMatch db lowerLine cardNumber in
  match bestMatch with
  | Some bestMatch =>
      if 2 <=? highestScore then
        let conditionPrice :=
          (DbEntry.marketPrice bestMatch * conditionMultipliers condition)%float in
        let ourOffer := (conditionPrice * 0.7)%float in
        random <- Rand.Math_random ;;
        Rand.ret (Some {|
          Card.id := (ofZ (DbEntry.id bestMatch) + random)%float;
          Card.name := DbEntry.name bestMatch;
          Card.set := DbEntry.set bestMatch;
          Card.number := DbEntry.number bestMatch;
          Card.condition := condition;
          Card.marketPrice := (Math_round (conditionPrice * 100) / 100)%float;
          Card.ourOffer := (Math_round (ourOffer * 100) / 100)%float;
          Card.confidence := (ofNat highestScore / 5)%float;
          Card.originalText := trimmedLine
        |})
      else Rand.ret None
  | None => Rand.ret None
  end.

Definition parseCardLine : string -> Rand.M (option Card.t) :=
  parseCardLineIn MOCK_CARD_DATABASE.

(** The [data] of a successful response. *)
Record ProcessTextResponse := {
  cards : list Card.t;
  totalLines : nat;
  matched : nat;
  unmatched : list string;
  unmatchedLines : nat
}.

(** The line loop of [POST] on [(processedCards, unmatched)]; [push] appends
    at the end. *)
Fixpoint lineLoop (db : list DbEntry.t) (lines : list string)
    (processedCards : list Card.t) (unmatched : list string)
    : Rand.M (list Card.t * list string) :=
  match lines with
  | [] => Rand.ret (processedCards, unmatched)
  | line :: rest =>
      parsedCard <- parseCardLineIn db line ;;
      match parsedCard with
      | Some parsedCard =>
          lineLoop db rest (processedCards ++ [parsedCard]) unmatched
      | None =>
          lineLoop db rest processedCards (unmatched ++ [trim line])
      end
  end.

Definition processLinesIn (db : list DbEntry.t) (lines : list string)
    : Rand.M (list Card.t * list string) :=
  lineLoop db lines [] [].

(** The answers of the route: status 400, status 500, or success. *)
Inductive Response :=
| BadRequest (error : string)
| ServerError (error : string)
| Success (data : ProcessTextResponse).

(** What [request.json()] gives: a rejection (the body is not JSON), the
    value [null], or any other JSON value, of which only the property [text]
    is read ([None]: no such property, or one that is not a string). *)
Inductive RequestBody :=
| InvalidJson
| JsonNull
| JsonValue (text : option string).

(** The [try] block of [POST] from the destructured [text] on ([None]:
    [undefined] or not a string).  Nothing in it throws.  Logging and the
    artificial delay are left out. *)
Definition POSTIn (db : list DbEntry.t) (text : option string) : Rand.M Response :=
  match text with
  | None => Rand.ret (BadRequest "No text provided")
  | Some text =>
      if negb (truthy text) then Rand.ret (BadRequest "No text provided") else
      let lines :=
        filter (fun line => truthy (trim line)) (split "010"%char text) in
      if List.length lines =? 0 then Rand.ret (BadRequest "No valid card entries found")
      else
        r <- processLinesIn db lines ;;
        let '(processedCards, unmatched) := r in
        Rand.ret (Success {|
          cards := processedCards;
          totalLines := List.length lines;
          matched := List.length processedCards;
          unmatched := unmatched;
          unmatchedLines := List.length unmatched
        |})
  end.

(** [POST] with its [try]/[catch]: [request.json()] rejecting, and the
    destructuring of [null], are caught and answered 500. *)
Definition POSTRequestIn (db : list DbEntry.t) (body : RequestBody)
    : Rand.M Response :=
  match body with
  | InvalidJson => Rand.ret (ServerError "Failed to process text")
  | JsonNull => Rand.ret (ServerError "Failed to process text")
  | JsonValue text => POSTIn db text
  end.

Definition POST : RequestBody -> Rand.M Response :=
  POSTRequestIn MOCK_CARD_DATABASE.

End ProcessText.

(* ================================================================== *)
(** ** Regular expressions under [RegExp.prototype.test]

    The patterns of lib/errors.ts are anchored at both ends ([^...$], no
    flags), so [test] answers whether the whole string belongs to the
    language of the pattern.  Membership is decided by derivatives. *)

Module JsRegExp.

Inductive regex :=
| Never
| Empty
| Char (p : ascii -> bool)
| Seq (r1 r2 : regex)
| Alt (r1 r2 : regex)
| Star (r : regex).

(** [r+], [r?] and [r{n}]. *)
Definition Plus (r : regex) : regex := Seq r (Star r).

Definition Opt (r : regex) : regex := Alt r Empty.

Fixpoint Times (n : nat) (r : regex) : regex :=
  match n with
  | O => Empty
  | S n' => Seq r (Times n' r)
  end.

Fixpoint nullable (r : regex) : bool :=
  match r with
  | Never => false
  | Empty => true
  | Char _ => false
  | Seq r1 r2 => nullable r1 && nullable r2
  | Alt r1 r2 => nullable r1 || nullable r2
  | Star _ => true
  end.

Fixpoint derive (c : ascii) (r : regex) : regex :=
  match r with
  | Never => Never
  | Empty => Never
  | Char p => if p c then Empty else Never
  | Seq r1 r2 =>
      if nullable r1
      then Alt (Seq (derive c r1) r2) (derive c r2)
      else Seq (derive c r1) r2
  | Alt r1 r2 => Alt (derive c r1) (derive c r2)
  | Star r1 => Seq (derive c r1) (Star r1)
  end.

(** [test r s]: the anchored pattern [r] matches [s]. *)
Fixpoint test (r : regex) (s : string) : bool :=
  match s with
  | EmptyString => nullable r
  | String c s' => test (derive c r) s'
  end.

(** The strings a pattern denotes. *)
Inductive lang : regex -> string -> Prop :=
| lang_Empty : lang Empty EmptyString
| lang_Char p c : p c = true -> lang (Char p) (String c EmptyString)
| lang_Seq r1 r2 s1 s2 : lang r1 s1 -> lang r2 s2 -> lang (Seq r1 r2) (s1 ++ s2)
| lang_Alt_l r1 r2 s : lang r1 s -> lang (Alt r1 r2) s
| lang_Alt_r r1 r2 s : lang r2 s -> lang (Alt r1 r2) s
| lang_Star_nil r : lang (Star r) EmptyString
| lang_Star_cons r s1 s2 : lang r s1 -> lang (Star r) s2 -> lang (Star r) (s1 ++ s2).

End JsRegExp.

(* ================================================================== *)
(** ** lib/errors.ts *)

Module Errors.

Import JsString JsNumber.

(** The enum [ErrorCode] of lib/types.ts. *)
Inductive ErrorCode :=
| VALIDATION_ERROR
| PROCESSING_ERROR
| DATABASE_ERROR
| API_ERROR
| NETWORK_ERROR
| OCR_ERROR
| CARD_NOT_FOUND
| INVALID_IMAGE
| RATE_LIMITED
| UNAUTHORIZED.

(** The string each member of the enum stands for. *)
Definition ErrorCode_value (c : ErrorCode) : string :=
  match c with
  | VALIDATION_ERROR => "VALIDATION_ERROR"
  | PROCESSING_ERROR => "PROCESSING_ERROR"
  | DATABASE_ERROR => "DATABASE_ERROR"
  | API_ERROR => "API_ERROR"
  | NETWORK_ERROR => "NETWORK_ERROR"
  | OCR_ERROR => "OCR_ERROR"
  | CARD_NOT_FOUND => "CARD_NOT_FOUND"
  | INVALID_IMAGE => "INVALID_IMAGE"
  | RATE_LIMITED => "RATE_LIMITED"
  | UNAUTHORIZED => "UNAUTHORIZED"
  end.

(** An instance of [AppError] or of one of its subclasses. *)
Record AppError := mkAppError {
  message : string;
  code : ErrorCode;
  statusCode : Z;
  isOperational : bool;
  field : option string
}.

Definition ValidationError (message : string) (field : option string) : AppError :=
  mkAppError message VALIDATION_ERROR 400 true field.

Definition ProcessingError (message : string) : AppError :=
  mkAppError message PROCESSING_ERROR 500 true None.

Definition DatabaseError (message : string) : AppError :=
  mkAppError message DATABASE_ERROR 500 true None.

Definition APIError (message : string) (statusCode : Z) : AppError :=
  mkAppError message API_ERROR statusCode true None.

Definition OCRError (message : string) : AppError :=
  mkAppError message OCR_ERROR 500 true None.

Definition CardNotFoundError (cardName : string) : AppError :=
  mkAppError ("Card not found: " ++ cardName) CARD_NOT_FOUND 404 true None.

Definition InvalidImageError (message : string) : AppError :=
  mkAppError message INVALID_IMAGE 400 true None.

Definition RateLimitError (message : string) : AppError :=
  mkAppError message RATE_LIMITED 429 true None.

(** What a [catch] clause may receive: an [AppError], another [Error], or
    any other value. *)
Inductive Thrown :=
| ThrownAppError (error : AppError)
| ThrownError (message : string)
| ThrownValue.

(** A call that returns normally or throws an [AppError]. *)
Inductive Completion (A : Type) :=
| Returns (a : A)
| Throws (error : AppError).

Arguments Returns {A} a.
Arguments Throws {A} error.

(** [ErrorDetails] of lib/types.ts: the code is a plain string there. *)
Record ErrorDetails := mkErrorDetails {
  detailsCode : string;
  detailsMessage : string;
  detailsField : option string
}.

Definition handleError (error : Thrown) : ErrorDetails :=
  match error with
  | ThrownAppError error =>
      mkErrorDetails (ErrorCode_value (code error)) (message error) (field error)
  | ThrownError message =>
      mkErrorDetails (ErrorCode_value PROCESSING_ERROR) message None
  | ThrownValue =>
      mkErrorDetails (ErrorCode_value PROCESSING_ERROR)
        "An unexpected error occurred" None
  end.

(** The object literal [friendlyMessages], keyed by the values of the enum. *)
Definition friendlyMessages : list (string * string) := [
  (ErrorCode_value VALIDATION_ERROR, "Please check your input and try again.");
  (ErrorCode_value PROCESSING_ERROR,
   "We encountered an issue processing your request. Please try again.");
  (ErrorCode_value DATABASE_ERROR,
   "We're having trouble accessing our database. Please try again later.");
  (ErrorCode_value API_ERROR,
   "We're experiencing technical difficulties. Please try again.");
  (ErrorCode_value NETWORK_ERROR,
   "Network connection issue. Please check your connection and try again.");
  (ErrorCode_value OCR_ERROR,
   "We couldn't read your images clearly. Please try uploading clearer photos.");
  (ErrorCode_value CARD_NOT_FOUND,
   "We couldn't find that card in our database. Please check the spelling.");
  (ErrorCode_value INVALID_IMAGE,
   "The image format is not supported. Please upload JPG, PNG, or WebP files.");
  (ErrorCode_value RATE_LIMITED,
   "Too many requests. Please wait a moment and try again.");
  (ErrorCode_value UNAUTHORIZED,
   "You don't have permission to perform this action.")
].

(** Property lookup [object[key]]: [None] is [undefined]. *)
Fixpoint lookup (key : string) (object : list (string * string)) : option string :=
  match object with
  | [] => None
  | (k, v) :: rest => if String.eqb k key then Some v else lookup key rest
  end.

(** The members every object literal inherits from [Object.prototype]. *)
Definition objectPrototypeProperties : list string := [
  "constructor"; "__defineGetter__"; "__defineSetter__"; "hasOwnProperty";
  "__lookupGetter__"; "__lookupSetter__"; "isPrototypeOf";
  "propertyIsEnumerable"; "toString"; "valueOf"; "__proto__"; "toLocaleString"
].

(** What [object[key]] evaluates to on an object literal whose own
    properties are strings: an own string, or the inherited member of that
    name (a function or an object: truthy, and not a string). *)
Inductive PropertyValue :=
| OwnString (s : string)
| Inherited (name : string).

(** [object[key]], own properties first; [None] is [undefined]. *)
Definition getProperty (key : string) (object : list (string * string))
    : option PropertyValue :=
  match lookup key object with
  | Some v => Some (OwnString v)
  | None =>
      if existsb (String.eqb key) objectPrototypeProperties
      then Some (Inherited key) else None
  end.

(** [friendlyMessages[error.code] || error.message] *)
Definition getUserFriendlyMessage (error : ErrorDetails) : PropertyValue :=
  match getProperty (detailsCode error) friendlyMessages with
  | Some (OwnString friendly) =>
      if truthy friendly then OwnString friendly
      else OwnString (detailsMessage error)
  | Some (Inherited name) => Inherited name
  | None => OwnString (detailsMessage error)
  end.

(** [[^\s@]] *)
Definition notSpaceNorAt (c : ascii) : bool :=
  negb (isWhiteSpace c || Ascii.eqb c "@"%char).

(** [/^[^\s@]+@[^\s@]+\.[^\s@]+$/] *)
Definition emailRegex : JsRegExp.regex :=
  JsRegExp.Seq (JsRegExp.Plus (JsRegExp.Char notSpaceNorAt))
    (JsRegExp.Seq (JsRegExp.Char (Ascii.eqb "@"%char))
       (JsRegExp.Seq (JsRegExp.Plus (JsRegExp.Char notSpaceNorAt))
          (JsRegExp.Seq (JsRegExp.Char (Ascii.eqb "."%char))
             (JsRegExp.Plus (JsRegExp.Char notSpaceNorAt))))).

Definition validateEmail (email : string) : bool :=
  JsRegExp.test emailRegex email.

(** [/^\d{5}(-\d{4})?$/] *)
Definition zipRegex : JsRegExp.regex :=
  JsRegExp.Seq (JsRegExp.Times 5 (JsRegExp.Char isDigit))
    (JsRegExp.Opt
       (JsRegExp.Seq (JsRegExp.Char (Ascii.eqb "-"%char))
          (JsRegExp.Times 4 (JsRegExp.Char isDigit)))).

Definition validateZipCode (zipCode : string) : bool :=
  JsRegExp.test zipRegex zipCode.

(** The two fields of a [File] that [validateImageFile] reads. *)
Record File := mkFile {
  fileType : string;
  fileSize : Z
}.

Definition validateImageFile (file : File) : Completion unit :=
  let allowedTypes := ["image/jpeg"; "image/png"; "image/webp"] in
  let maxSize := (10 * 1024 * 1024)%Z in
  if negb (existsb (String.eqb (fileType file)) allowedTypes) then
    Throws (InvalidImageError "Only JPEG, PNG, and WebP images are allowed")
  else if (fileSize file >? maxSize)%Z then
    Throws (InvalidImageError "Image size must be less than 10MB")
  else Returns tt.

Definition validateCardText (text : string) : Completion unit :=
  if negb (truthy text) || (String.length (trim text) =? 0) then
    Throws (ValidationError "Card list cannot be empty" (Some "text"))
  else if (Z.of_nat (String.length text) >? 10000)%Z then
    Throws (ValidationError "Card list is too long (max 10,000 characters)"
              (Some "text"))
  else Returns tt.

(** *** [retryWithBackoff]

    The promise [fn()] returns is modelled by how it settles.  [fn] may
    settle differently each time it is called: its model is told how many
    times it was called before.  The effects are the calls of [fn] and the
    delays waited. *)

Inductive Settled (T E : Type) :=
| Fulfilled (value : T)
| Rejected (reason : E).

Arguments Fulfilled {T E} value.
Arguments Rejected {T E} reason.

Record RetryLog := mkRetryLog {
  calls : nat;
  delays : list float
}.

(** The [for] loop, entered with the current [attempt] and [lastError]
    ([None]: not assigned yet).  [fuel] bounds the iterations still to come;
    [retryWithBackoff] starts it with [maxRetries], so it is 0 only when
    [attempt] has reached [maxRetries], where the loop test fails as well and
    the final [throw lastError] is reached. *)
Fixpoint retryLoop {T E : Type} (fn : nat -> Settled T E)
    (maxRetries : nat) (baseDelay : float)
    (fuel attempt : nat) (lastError : option E) (log : RetryLog)
    : Settled T (option E) * RetryLog :=
  match fuel with
  | O => (Rejected lastError, log)
  | S fuel' =>
      if attempt <? maxRetries then
        let called := mkRetryLog (S (calls log)) (delays log) in
        match fn (calls log) with
        | Fulfilled value => (Fulfilled value, called)
        | Rejected error =>
            let lastError := Some error in
            if (Z.of_nat attempt =? Z.of_nat maxRetries - 1)%Z then
              (Rejected lastError, called)
            else
              let delay := (baseDelay * Math_pow2 attempt)%float in
              retryLoop fn maxRetries baseDelay fuel' (S attempt) lastError
                (mkRetryLog (calls called) (delays called ++ [delay]))
        end
      else (Rejected lastError, log)
  end.

(** [retryWithBackoff(fn, maxRetries, baseDelay)] for a whole number of
    retries.  A rejection carries what [lastError] held when it was thrown:
    [Some error] for the value [fn] was rejected with (whatever that value
    is, [undefined] included), [None] when [lastError] was never assigned. *)
Definition retryWithBackoff {T E : Type} (fn : nat -> Settled T E)
    (maxRetries : nat) (baseDelay : float) : Settled T (option E) * RetryLog :=
  retryLoop fn maxRetries baseDelay maxRetries 0 None (mkRetryLog 0 []).

(** The same for any integer [maxRetries]: a negative one, like 0, never
    enters the loop. *)
Definition retryWithBackoffInt {T E : Type} (fn : nat -> Settled T E)
    (maxRetries : Z) (baseDelay : float) : Settled T (option E) * RetryLog :=
  retryWithBackoff fn (Z.to_nat maxRetries) baseDelay.

Definition isOperationalError (error : Thrown) : bool :=
  match error with
  | ThrownAppError error => isOperational error
  | _ => false
  end.

End Errors.

(* ================================================================== *)
(** ** The OCR service: class [OCRService] *)

Module OCRService.

Import JsString JsNumber.

(** Truthiness of an optional string argument: given and non-empty. *)
Definition given (s : option string) : bool :=
  match s with
  | Some s => truthy s
  | None => false
  end.

Definition normalizeCondition (condition : option string) : option CardCondition :=
  match condition with
  | None => None
  | Some condition =>
      if negb (truthy condition) then None else
      let normalized := trim (toLowerCase condition) in
      if includes normalized "mint" && negb (includes normalized "near") then Some Mint
      else if includes normalized "near mint" || String.eqb normalized "nm" then Some NearMint
      else if includes normalized "lightly played" || String.eqb normalized "lp" then Some LightlyPlayed
      else if includes normalized "moderately played" || String.eqb normalized "mp" then Some ModeratelyPlayed
      else if includes normalized "heavily played" || String.eqb normalized "hp" then Some HeavilyPlayed
      else if includes normalized "damaged" || includes normalized "poor" then Some HeavilyPlayed
      else None
  end.

Definition knownPokemon : list string := [
  "charizard"; "pikachu"; "blastoise"; "venusaur"; "alakazam";
  "mewtwo"; "mew"; "dragonite"; "gyarados"; "machamp"; "gengar";
  "articuno"; "zapdos"; "moltres"
].

(** [knownPokemon.some(pokemon => cardName.toLowerCase().includes(pokemon))] *)
Definition mentionsKnownPokemon (cardName : string) : bool :=
  existsb (fun pokemon => includes (toLowerCase cardName) pokemon) knownPokemon.

Definition calculateConfidence (cardName setName cardNumber : option string) : float :=
  let confidence := 0%float in
  let confidence := (confidence + 0.1)%float in
  let confidence :=
    match cardName with
    | Some cardName =>
        if truthy cardName then
          let confidence := (confidence + 0.4)%float in
          if mentionsKnownPokemon cardName
          then (confidence + 0.2)%float else confidence
        else confidence
    | None => confidence
    end in
  let confidence :=
    if given setName then (confidence + 0.3)%float else confidence in
  let confidence :=
    match cardNumber with
    | Some cardNumber =>
        if truthy cardNumber then
          let confidence := (confidence + 0.2)%float in
          if includes cardNumber "/" then (confidence + 0.1)%float else confidence
        else confidence
    | None => confidence
    end in
  Math_min confidence 1.0%float.

(** *** Images *)

(** A [Buffer]: a sequence of octets. *)
Definition Buffer := list byte.

Fixpoint Buffer_equals (a b : Buffer) : bool :=
  match a, b with
  | [], [] => true
  | x :: a', y :: b' => Byte.eqb x y && Buffer_equals a' b'
  | _, _ => false
  end.

(** [buf.subarray(start, end)] for indices that are not negative; both are
    clamped to the length. *)
Definition subarray (start finish : nat) (buf : Buffer) : Buffer :=
  firstn (finish - start) (skipn start buf).

Definition pngSignature : Buffer := [x89; x50; x4e; x47; x0d; x0a; x1a; x0a].
Definition jpegSignature : Buffer := [xff; xd8].
Definition riffSignature : Buffer := [x52; x49; x46; x46].
Definition webpSignature : Buffer := [x57; x45; x42; x50].

Definition validateImage (imageBuffer : Buffer) : Errors.Completion unit :=
  if List.length imageBuffer =? 0 then
    Errors.Throws (Errors.InvalidImageError "Image buffer is empty")
  else
    let maxSize := (10 * 1024 * 1024)%Z in
    if (Z.of_nat (List.length imageBuffer) >? maxSize)%Z then
      Errors.Throws (Errors.InvalidImageError "Image size exceeds 10MB limit")
    else
      let isPNG := Buffer_equals (subarray 0 8 imageBuffer) pngSignature in
      let isJPEG := Buffer_equals (subarray 0 2 imageBuffer) jpegSignature in
      let isWebP :=
        Buffer_equals (subarray 0 4 imageBuffer) riffSignature
        && Buffer_equals (subarray 8 12 imageBuffer) webpSignature in
      if negb isPNG && negb isJPEG && negb isWebP then
        Errors.Throws (Errors.InvalidImageError
          "Invalid image format. Only PNG, JPEG, and WebP are supported")
      else Errors.Returns tt.

(** *** Text clean-up *)

(** The members of the class [[\w\s\/\-\.]]. *)
Definition isCardTextChar (c : ascii) : bool :=
  isWordChar c || isWhiteSpace c
  || Ascii.eqb c "/"%char || Ascii.eqb c "-"%char || Ascii.eqb c "."%char.

Definition cleanOCRText (text : string) : string :=
  trim (collapseWhiteSpace (removeChars isCardTextChar text)).

(** *** Detections *)

Record BoundingBox := mkBoundingBox {
  x : float;
  y : float;
  width : float;
  height : float
}.

Record OCRResult := mkOCRResult {
  text : string;
  ocrConfidence : float;
  ocrBoundingBox : option BoundingBox
}.

Record CardDetection := mkCardDetection {
  cardName : option string;
  setName : option string;
  cardNumber : option string;
  condition : option CardCondition;
  confidence : float;
  boundingBox : option BoundingBox
}.

(** A regular-expression literal. *)
Record RegExp := mkRegExp {
  source : string;
  flags : string
}.

Definition cardNamePatterns : list RegExp := [
  mkRegExp "\b(charizard|pikachu|blastoise|venusaur|alakazam|mewtwo|mew|dragonite|gyarados|machamp|gengar|articuno|zapdos|moltres)\b" "gi";
  mkRegExp "\b\w+\s+(v|vmax|gx|ex|prime|star|delta|crystal)\b" "gi"
].

Definition setPatterns : list RegExp := [
  mkRegExp "\b(base set|jungle|fossil|team rocket|gym|neo|e-card|ex|diamond|pearl|platinum|black|white|xy|sun|moon|sword|shield|brilliant|astral|lost|silver|paldea|obsidian|crown|chilling|battle|vivid|darkness|rebel|pokemon go)\b" "gi"
].

Definition numberPatterns : list RegExp := [
  mkRegExp "\b(\d{1,3}\/\d{1,3})\b" "g";
  mkRegExp "\b#(\d{1,3})\b" "g"
].

Definition conditionPatterns : list RegExp := [
  mkRegExp "\b(mint|near mint|nm|lightly played|lp|moderately played|mp|heavily played|hp|damaged|poor)\b" "gi"
].

(** [array[i] || undefined]: the element when there is one and it is not
    the empty string. *)
Definition elementOrUndefined (array : list string) (i : nat) : option string :=
  match nth_error array i with
  | Some s => if truthy s then Some s else None
  | None => None
  end.

(** [a || b] on optional strings. *)
Definition orElse (a b : option string) : option string :=
  match a with
  | Some _ => a
  | None => b
  end.

Section ExtractCardInfo.

(** [text.match(pattern)] for a global pattern: all the matches, or [None]
    ([null]) when there is none.  The engine is left abstract. *)
Variable stringMatch : string -> RegExp -> option (list string).

(** One of the four extraction loops: the matches of each pattern, in the
    order of the patterns. *)
Definition collectMatches (allText : string) (patterns : list RegExp) : list string :=
  flat_map
    (fun pattern =>
       match stringMatch allText pattern with
       | Some matches => matches
       | None => []
       end)
    patterns.

Definition extractCardInfo (ocrResults : list OCRResult) : list CardDetection :=
  if List.length ocrResults =? 0 then [] else
  let allText := toLowerCase (String.concat " " (map text ocrResults)) in
  let cardNames := collectMatches allText cardNamePatterns in
  let sets := collectMatches allText setPatterns in
  let numbers := collectMatches allText numberPatterns in
  let conditions := collectMatches allText conditionPatterns in
  let maxDetections := Nat.max (List.length cardNames) 1 in
  map
    (fun i =>
       {| cardName := elementOrUndefined cardNames i;
          setName := orElse (elementOrUndefined sets i) (elementOrUndefined sets 0);
          cardNumber :=
            orElse (elementOrUndefined numbers i) (elementOrUndefined numbers 0);
          condition :=
            normalizeCondition
              (orElse (elementOrUndefined conditions i)
                      (elementOrUndefined conditions 0));
          confidence :=
            calculateConfidence
              (nth_error cardNames i) (nth_error sets i) (nth_error numbers i);
          boundingBox :=
            match ocrResults with
            | first :: _ => ocrBoundingBox first
            | [] => None
            end |})
    (seq 0 maxDetections).

End ExtractCardInfo.

End OCRService.

(* ================================================================== *)
(** ** The specification's formulas, as its text words them *)

Module Spec.

Import JsString JsNumber.

(** "each with a fixed price multiplier (1.1, 1.0, 0.8, 0.6, 0.4)" *)
Definition conditionMultiplier (c : CardCondition) : Q :=
  match c with
  | Mint => 11 # 10
  | NearMint => 1
  | LightlyPlayed => 8 # 10
  | ModeratelyPlayed => 6 # 10
  | HeavilyPlayed => 4 # 10
  end%Q.

(** "Rounding is to 2 decimal places (currency), half-up": the multiple of
    0.01 nearest to [x], a tie going up. *)
Definition round2 (x : Q) : Q := (Qfloor (x * 100 + (1 # 2)) # 100)%Q.

(** "marketPriceAtCondition = round2(entry.marketPrice * conditionMultiplier)" *)
Definition marketPriceAtCondition (marketPrice : Q) (c : CardCondition) : Q :=
  round2 (marketPrice * conditionMultiplier c)%Q.

(** "offerPrice = round2(marketPriceAtCondition * 0.7)": the factor applied
    to the price already rounded. *)
Definition offerPrice (marketPrice : Q) (c : CardCondition) : Q :=
  round2 (marketPriceAtCondition marketPrice c * (7 # 10))%Q.

(** 1 when the signal is present, 0 otherwise. *)
Definition ind (b : bool) : float := if b then 1%float else 0%float.

(** The additive confidence score over five signals, capped at 1. *)
Definition confidenceOf (hasName known hasSet hasNumber fraction : bool) : float :=
  Math_min
    (0.1 + 0.4 * ind hasName + 0.2 * ind known + 0.3 * ind hasSet
     + 0.2 * ind hasNumber + 0.1 * ind fraction)%float
    1.0%float.

(** "that name is a member of a fixed known-name allow-list", letter case
    set aside. *)
Definition inAllowList (cardName : string) : bool :=
  existsb (String.eqb (toLowerCase cardName)) OCRService.knownPokemon.

Definition nameOf (s : option string) : string :=
  match s with
  | Some s => s
  | None => EmptyString
  end.

(** The estimator as the specification words it: the known-name bonus goes
    to members of the allow-list. *)
Definition estimate (cardName setName cardNumber : option string) : float :=
  confidenceOf
    (OCRService.given cardName)
    (OCRService.given cardName && inAllowList (nameOf cardName))
    (OCRService.given setName)
    (OCRService.given cardNumber)
    (OCRService.given cardNumber && includes (nameOf cardNumber) "/").

End Spec.

(* ================================================================== *)
(** ** Derived notions used by the statements *)

Import JsString JsNumber ProcessText.

(** The entry and score [parseCardLineIn] settles on, when it returns a
    card: the part of the function that draws no random number. *)
Definition lineMatch (db : list DbEntry.t) (line : string)
    : option (DbEntry.t * nat) :=
  let trimmedLine := trim line in
  if negb (truthy trimmedLine) then None else
  match findBestMatch db (toLowerCase trimmedLine) (extractCardNumber trimmedLine) with
  | (Some bestMatch, highestScore) =>
      if 2 <=? highestScore then Some (bestMatch, highestScore) else None
  | (None, _) => None
  end.

Definition isMatched (db : list DbEntry.t) (line : string) : bool :=
  match lineMatch db line with
  | Some _ => true
  | None => false
  end.

(** The score of an entry against a line, as the catalog loop computes it. *)
Definition lineScore (line : string) : DbEntry.t -> nat :=
  scoreCard (toLowerCase (trim line)) (extractCardNumber (trim line)).

(** A card with its random identifier blanked. *)
Definition withoutId (c : Card.t) : Card.t :=
  {| Card.id := 0%float;
     Card.name := Card.name c;
     Card.set := Card.set c;
     Card.number := Card.number c;
     Card.condition := Card.condition c;
     Card.marketPrice := Card.marketPrice c;
     Card.ourOffer := Card.ourOffer c;
     Card.confidence := Card.confidence c;
     Card.originalText := Card.originalText c |}.

Definition processLines : list string -> Rand.M (list Card.t * list string) :=
  processLinesIn MOCK_CARD_DATABASE.

(** A stream of draws for the examples: 0.25 first, 0.5 ever after. *)
Definition sampleDraws : Rand.source :=
  fun n => match n with 0 => 0.25%float | _ => 0.5%float end.

(** A one-entry catalog, to append to the shipped one: a second Charizard
    at another price. *)
Definition oddPriceCatalog : list DbEntry.t := [
  DbEntry.mk 1 "Charizard" "Base Set" "4/102" 10.31
    [NearMint; LightlyPlayed; ModeratelyPlayed; HeavilyPlayed]
].

(** The card [parseCardLineIn] builds from the entry, the score, the line
    and the random draw. *)
Definition buildCard (bestMatch : DbEntry.t) (highestScore : nat)
    (line : string) (random : float) : Card.t :=
  let trimmedLine := trim line in
  let condition := extractCondition (toLowerCase trimmedLine) in
  let conditionPrice :=
    (DbEntry.marketPrice bestMatch * conditionMultipliers condition)%float in
  {| Card.id := (ofZ (DbEntry.id bestMatch) + random)%float;
     Card.name := DbEntry.name bestMatch;
     Card.set := DbEntry.set bestMatch;
     Card.number := DbEntry.number bestMatch;
     Card.condition := condition;
     Card.marketPrice := (Math_round (conditionPrice * 100) / 100)%float;
     Card.ourOffer := (Math_round (conditionPrice * 0.7 * 100) / 100)%float;
     Card.confidence := (ofNat highestScore / 5)%float;
     Card.originalText := trimmedLine |}.

(** An entry with its list of supported conditions replaced. *)
Definition withVariants (vs : list CardCondition) (e : DbEntry.t) : DbEntry.t :=
  {| DbEntry.id := DbEntry.id e;
     DbEntry.name := DbEntry.name e;
     DbEntry.set := DbEntry.set e;
     DbEntry.number := DbEntry.number e;
     DbEntry.marketPrice := DbEntry.marketPrice e;
     DbEntry.variants := vs |}.

(** The cards a batch of lines is matched to, identifiers blanked: what the
    line loop reports whatever [Math.random] draws. *)
Definition matchedWithoutId (db : list DbEntry.t) (lines : list string) : list Card.t :=
  flat_map
    (fun line =>
       match lineMatch db line with
       | Some (e, s) => [withoutId (buildCard e s line 0%float)]
       | None => []
       end)
    lines.

(** Two closed Numbers are told apart by evaluating [==] on them. *)
Ltac float_discriminate :=
  let H := fresh in
  intro H; vm_compute in H;
  match type of H with
  | ?a = ?b =>
      generalize (f_equal (fun v => PrimFloat.eqb v a) H);
      vm_compute; discriminate
  end.

(** Every character of [s] satisfies [p]. *)
Fixpoint allChars (p : ascii -> bool) (s : string) : bool :=
  match s with
  | EmptyString => true
  | String c s' => p c && allChars p s'
  end.

(** A string made of white space only. *)
Definition blank (s : string) : bool := allChars isWhiteSpace s.

(** A card with the text it was read from blanked. *)
Definition withoutOriginalText (c : Card.t) : Card.t :=
  {| Card.id := Card.id c;
     Card.name := Card.name c;
     Card.set := Card.set c;
     Card.number := Card.number c;
     Card.condition := Card.condition c;
     Card.marketPrice := Card.marketPrice c;
     Card.ourOffer := Card.ourOffer c;
     Card.confidence := Card.confidence c;
     Card.originalText := EmptyString |}.

(** The string literal each member of the type [CardCondition] is, in
    lib/types.ts. *)
Definition CardCondition_label (c : CardCondition) : string :=
  match c with
  | Mint => "Mint"
  | NearMint => "Near Mint"
  | LightlyPlayed => "Lightly Played"
  | ModeratelyPlayed => "Moderately Played"
  | HeavilyPlayed => "Heavily Played"
  end.

(** The non-blank lines [POST] hands to its loop. *)
Definition linesOf (text : string) : list string :=
  filter (fun line => truthy (trim line)) (split "010"%char text).

(** No two adjacent characters of [s] are both white space. *)
Fixpoint noWhiteSpaceRun (s : string) : bool :=
  match s with
  | EmptyString => true
  | String c s' =>
      match s' with
      | EmptyString => true
      | String d _ => negb (isWhiteSpace c && isWhiteSpace d)
      end && noWhiteSpaceRun s'
  end.

(** The characters [cleanOCRText] lets through: word characters, the
    slash, the hyphen, the full stop and the space. *)
Definition isCleanChar (c : ascii) : bool :=
  isWordChar c || Ascii.eqb c " "%char
  || Ascii.eqb c "/"%char || Ascii.eqb c "-"%char || Ascii.eqb c "."%char.

(** A promise that is rejected with [error] the first [n] times it is
    asked for and fulfilled with [value] from then on. *)
Definition failsThenSucceeds {T E : Type} (n : nat) (error : nat -> E) (value : T)
    : nat -> Errors.Settled T E :=
  fun k => if k <? n then Errors.Rejected (error k) else Errors.Fulfilled value.

(** The two shapes an extracted card number can have: two runs of digits
    around a slash, or one run of digits. *)
Inductive numberShape : string -> Prop :=
| shape_fraction (a b : string) :
    truthy a = true -> allChars isDigit a = true ->
    truthy b = true -> allChars isDigit b = true ->
    numberShape (a ++ "/" ++ b)
| shape_digits (d : string) :
    truthy d = true -> allChars isDigit d = true ->
    numberShape d.

(* ================================================================== *)
(** * Properties *)

(** ** Substrings *)

Section Substrings.

Lemma append_assoc (a b c : string) : (a ++ b) ++ c = a ++ (b ++ c).
Proof. induction a as [|x a IH]; simpl; [reflexivity | now rewrite IH]. Qed.

Lemma startsWith_append (k r : string) : startsWith (k ++ r) k = true.
Proof.
  induction k as [|b k IH]; simpl; [reflexivity|].
  now rewrite Ascii.eqb_refl, IH.
Qed.

Lemma startsWith_inv (s k : string) :
  startsWith s k = true -> exists r, s = k ++ r.
Proof.
  revert s; induction k as [|b k IH]; intros s H; simpl in *.
  - now exists s.
  - destruct s as [|a s]; [discriminate|].
    apply andb_true_iff in H as [Hab Hk].
    apply Ascii.eqb_eq in Hab; subst b.
    destruct (IH _ Hk) as [r ->]. now exists r.
Qed.

Lemma includes_startsWith (s k : string) :
  startsWith s k = true -> includes s k = true.
Proof. intros H; destruct s; simpl in *; now rewrite H. Qed.

Lemma includes_behind (a s k : string) :
  includes s k = true -> includes (a ++ s) k = true.
Proof.
  intros H; induction a as [|c a IH]; simpl; [exact H|].
  rewrite IH. apply orb_true_r.
Qed.

(** A string that contains [a ++ b] contains [b]. *)
Lemma includes_tail (a b s : string) :
  includes s (a ++ b) = true -> includes s b = true.
Proof.
  induction s as [|c s IH]; simpl; intros H.
  - rewrite orb_false_r in *.
    destruct (startsWith_inv _ _ H) as [r Hr].
    destruct a; [simpl in *; exact H | discriminate].
  - apply orb_true_iff in H as [H|H].
    + destruct (startsWith_inv _ _ H) as [r Hr].
      change (includes (String c s) b = true).
      rewrite Hr, append_assoc.
      apply includes_behind, includes_startsWith, startsWith_append.
    + rewrite (IH H). apply orb_true_r.
Qed.

End Substrings.

(** ** The condition loop *)

Lemma includes_near_mint_mint (s : string) :
  includes s "near mint" = true -> includes s "mint" = true.
Proof. exact (includes_tail "near " "mint" s). Qed.

Lemma extractCondition_mint (lowerLine : string) :
  includes lowerLine "mint" = true -> extractCondition lowerLine = Mint.
Proof.
  intros H. unfold extractCondition, CONDITIONS. simpl conditionLoop.
  now rewrite H.
Qed.

(** ** [parseCardLineIn] in terms of its pure part *)

Lemma parseCardLineIn_eq (db : list DbEntry.t) (line : string) (g : Rand.source) :
  parseCardLineIn db line g =
  match lineMatch db line with
  | Some (e, s) => (Some (buildCard e s line (g 0)), fun n => g (S n))
  | None => (None, g)
  end.
Proof.
  unfold parseCardLineIn, lineMatch.
  destruct (negb (truthy (trim line))); [reflexivity|].
  destruct (findBestMatch db _ _) as [[e|] s]; [|reflexivity].
  destruct (2 <=? s); reflexivity.
Qed.

Lemma parseCardLineIn_Some (db : list DbEntry.t) (line : string)
    (g g' : Rand.source) (c : Card.t) :
  parseCardLineIn db line g = (Some c, g') ->
  exists e s, lineMatch db line = Some (e, s) /\ c = buildCard e s line (g 0).
Proof.
  rewrite parseCardLineIn_eq.
  destruct (lineMatch db line) as [[e s]|]; intros H; inversion H.
  now exists e, s.
Qed.

Lemma parseCardLineIn_None (db : list DbEntry.t) (line : string) (g : Rand.source) :
  lineMatch db line = None -> parseCardLineIn db line g = (None, g).
Proof. intros H. now rewrite parseCardLineIn_eq, H. Qed.

(** ** The catalog loop *)

Section CatalogLoop.

Variables lowerLine cardNumber : string.

Let sc := scoreCard lowerLine cardNumber.
Let step := matchStep lowerLine cardNumber.

(** Entries that do not beat the running score leave the state alone. *)
Lemma loop_keeps (db : list DbEntry.t) (b : option DbEntry.t) (h : nat) :
  Forall (fun e => sc e <= h) db ->
  fold_left step db (b, h) = (b, h).
Proof.
  induction 1 as [|e db He _ IH]; simpl; [reflexivity|].
  fold sc. destruct (Nat.ltb_spec h (sc e)); [lia | exact IH].
Qed.

(** When some entry beats the running score, the loop ends on the first
    entry that attains the maximum. *)
Lemma loop_first_max (db : list DbEntry.t) :
  forall (b : option DbEntry.t) (h : nat),
    h < list_max (map sc db) ->
    exists pre e post,
      db = (pre ++ e :: post)%list /\
      sc e = list_max (map sc db) /\
      Forall (fun x => sc x < sc e) pre /\
      Forall (fun x => sc x <= sc e) post /\
      fold_left step db (b, h) = (Some e, sc e).
Proof.
  induction db as [|a db IH]; intros b h Hlt; simpl in Hlt; [lia|].
  simpl fold_left. fold sc.
  destruct (Nat.ltb_spec h (sc a)) as [Ha|Ha].
  - destruct (Nat.le_gt_cases (list_max (map sc db)) (sc a)) as [Hle|Hgt].
    + exists [], a, db. simpl.
      assert (Hall : Forall (fun x => sc x <= sc a) db).
      { apply list_max_le in Hle. rewrite Forall_map in Hle. exact Hle. }
      repeat split; [lia | constructor | exact Hall | now apply loop_keeps].
    + destruct (IH (Some a) (sc a) Hgt) as (pre & e & post & -> & He & Hpre & Hpost & Hrun).
      exists (a :: pre), e, post. simpl.
      repeat split; [lia | constructor; [lia | exact Hpre] | exact Hpost | exact Hrun].
  - assert (Hgt : h < list_max (map sc db)) by lia.
    destruct (IH b h Hgt) as (pre & e & post & -> & He & Hpre & Hpost & Hrun).
    exists (a :: pre), e, post. simpl.
    repeat split; [lia | constructor; [lia | exact Hpre] | exact Hpost | exact Hrun].
Qed.

(** The score the loop ends with is the maximum, and never lower than the
    score it started from. *)
Lemma loop_score (db : list DbEntry.t) (b : option DbEntry.t) (h : nat) :
  snd (fold_left step db (b, h)) = Nat.max h (list_max (map sc db)).
Proof.
  destruct (Nat.le_gt_cases (list_max (map sc db)) h) as [Hle|Hgt].
  - rewrite loop_keeps; [simpl; lia|].
    apply list_max_le in Hle. now rewrite Forall_map in Hle.
  - destruct (loop_first_max db b h Hgt) as (_ & e & _ & _ & He & _ & _ & ->).
    simpl. lia.
Qed.

(** The entry the loop ends with is the one it started with or one of the
    catalog. *)
Lemma loop_entry (db : list DbEntry.t) :
  forall (b : option DbEntry.t) (h : nat) (e : DbEntry.t) (s : nat),
    fold_left step db (b, h) = (Some e, s) ->
    b = Some e \/ In e db.
Proof.
  induction db as [|a db IH]; intros b h e s H; simpl in H.
  - inversion H. now left.
  - fold sc in H.
    destruct (h <? sc a); apply IH in H as [H|H].
    + inversion H. right. now left.
    + right. now right.
    + now left.
    + right. now right.
Qed.

End CatalogLoop.

(** ** The matcher on a line *)

Lemma lineMatch_Some (db : list DbEntry.t) (line : string) (e : DbEntry.t) (s : nat) :
  lineMatch db line = Some (e, s) <->
  truthy (trim line) = true /\
  findBestMatch db (toLowerCase (trim line)) (extractCardNumber (trim line)) = (Some e, s) /\
  2 <= s.
Proof.
  unfold lineMatch. destruct (truthy (trim line)); cbn [negb].
  - destruct (findBestMatch db _ _) as [[e'|] s'].
    + destruct (Nat.leb_spec 2 s') as [Hs'|Hs']; split.
      * intros H; inversion H; subst. repeat split; auto.
      * intros (_ & H & _). now inversion H.
      * discriminate.
      * intros (_ & H & Hs). inversion H; subst. lia.
    + split; [discriminate | intros (_ & H & _); discriminate].
  - split; [discriminate | intros (H & _); discriminate].
Qed.

Lemma lineMatch_In (db : list DbEntry.t) (line : string) (e : DbEntry.t) (s : nat) :
  lineMatch db line = Some (e, s) -> In e db.
Proof.
  intros H. apply lineMatch_Some in H as (_ & H & _).
  apply loop_entry in H as [H|H]; [discriminate | exact H].
Qed.

(** C3.  For a non-blank line and any catalog, with m the maximum of the
    entries' scores: when m is at least 2 the matcher returns the first entry
    of the catalog, in iteration order, whose score is m (every entry before
    it scores strictly less, none after it scores more) and [parseCardLineIn]
    returns the card built from that entry; when m is below 2 the matcher
    returns nothing, [parseCardLineIn] returns null and the line loop files
    the (trimmed) line under [unmatched]. *)
Theorem best_match_is_first_maximum :
  forall (db : list DbEntry.t) (line : string),
    truthy (trim line) = true ->
    let m := list_max (map (lineScore line) db) in
    (2 <= m ->
     exists pre e post,
       db = (pre ++ e :: post)%list /\
       lineScore line e = m /\
       Forall (fun x => lineScore line x < m) pre /\
       Forall (fun x => lineScore line x <= m) post /\
       findBestMatch db (toLowerCase (trim line)) (extractCardNumber (trim line))
         = (Some e, m) /\
       forall g, parseCardLineIn db line g
                 = (Some (buildCard e m line (g 0)), fun n => g (S n)))
    /\
    (m < 2 ->
     lineMatch db line = None /\
     forall g, parseCardLineIn db line g = (None, g) /\
               processLinesIn db [line] g = (([], [trim line]), g)).
Proof.
  intros db line Hne m. split; intros Hm.
  - destruct (loop_first_max (toLowerCase (trim line)) (extractCardNumber (trim line))
                db None 0) as (pre & e & post & Hdb & He & Hpre & Hpost & Hrun).
    { fold (lineScore line). fold m. lia. }
    fold (lineScore line) in He, Hpre, Hpost, Hrun. fold m in He.
    rewrite He in Hpre, Hpost, Hrun.
    exists pre, e, post. repeat split; try assumption.
    intros g. rewrite parseCardLineIn_eq.
    assert (Hl : lineMatch db line = Some (e, m)).
    { apply lineMatch_Some. repeat split; assumption. }
    now rewrite Hl.
  - assert (Hl : lineMatch db line = None).
    { destruct (lineMatch db line) as [[e s]|] eqn:E; [|reflexivity].
      apply lineMatch_Some in E as (_ & E & Hs).
      pose proof (loop_score (toLowerCase (trim line)) (extractCardNumber (trim line))
                    db None 0) as Hsc.
      unfold findBestMatch in E. rewrite E in Hsc. simpl in Hsc.
      fold (lineScore line) in Hsc. fold m in Hsc. lia. }
    split; [exact Hl|]. intros g.
    assert (Hp : parseCardLineIn db line g = (None, g)) by now apply parseCardLineIn_None.
    split; [exact Hp|].
    unfold processLinesIn. simpl. unfold Rand.bind. now rewrite Hp.
Qed.

Lemma best_match_is_first_maximum_witness :
  truthy (trim "Pikachu Base Set") = true /\
  2 <= list_max (map (lineScore "Pikachu Base Set") MOCK_CARD_DATABASE) /\
  exists pre e post,
    MOCK_CARD_DATABASE = (pre ++ e :: post)%list /\
    lineScore "Pikachu Base Set" e
      = list_max (map (lineScore "Pikachu Base Set") MOCK_CARD_DATABASE) /\
    Forall (fun x => lineScore "Pikachu Base Set" x
                     < list_max (map (lineScore "Pikachu Base Set") MOCK_CARD_DATABASE)) pre.
Proof.
  assert (H1 : truthy (trim "Pikachu Base Set") = true) by reflexivity.
  assert (H2 : 2 <= list_max (map (lineScore "Pikachu Base Set") MOCK_CARD_DATABASE))
    by (vm_compute; lia).
  split; [exact H1|]. split; [exact H2|].
  destruct (best_match_is_first_maximum MOCK_CARD_DATABASE "Pikachu Base Set" H1)
    as [Hhit _].
  destruct (Hhit H2) as (pre & e & post & Hdb & He & Hpre & _).
  exists pre, e, post. repeat split; assumption.
Defined.

(** ** Scenarios on the current catalog *)

(** C9.  For each of the six entries E of the current catalog, the line
    made of E's name, a space and E's set is matched to E itself, with a
    score of at least 5, and [parseCardLine] returns the card built from E. *)
Theorem name_and_set_match_their_entry :
  forall E : DbEntry.t,
    In E MOCK_CARD_DATABASE ->
    let line := DbEntry.name E ++ " " ++ DbEntry.set E in
    exists s,
      findBestMatch MOCK_CARD_DATABASE
        (toLowerCase (trim line)) (extractCardNumber (trim line)) = (Some E, s) /\
      5 <= s /\
      forall g, parseCardLine line g
                = (Some (buildCard E s line (g 0)), fun n => g (S n)).
Proof.
  intros E HE line. subst line.
  assert (Hgen : forall s,
    lineMatch MOCK_CARD_DATABASE (DbEntry.name E ++ " " ++ DbEntry.set E) = Some (E, s) ->
    forall g, parseCardLine (DbEntry.name E ++ " " ++ DbEntry.set E) g
              = (Some (buildCard E s (DbEntry.name E ++ " " ++ DbEntry.set E) (g 0)),
                 fun n => g (S n))).
  { intros s Hs g. unfold parseCardLine. now rewrite parseCardLineIn_eq, Hs. }
  simpl in HE.
  destruct HE as [<-|[<-|[<-|[<-|[<-|[<-|[]]]]]]];
    [exists 6 | exists 7 | exists 6 | exists 6 | exists 6 | exists 6];
    (split; [vm_compute; reflexivity |
     split; [lia | apply Hgen; vm_compute; reflexivity]]).
Qed.

Lemma name_and_set_match_their_entry_witness :
  In (DbEntry.mk 5 "Pikachu" "Base Set" "58/102" 35.00
        [NearMint; LightlyPlayed; ModeratelyPlayed; HeavilyPlayed])
     MOCK_CARD_DATABASE /\
  exists s,
    findBestMatch MOCK_CARD_DATABASE
      (toLowerCase (trim "Pikachu Base Set")) (extractCardNumber (trim "Pikachu Base Set"))
    = (Some (DbEntry.mk 5 "Pikachu" "Base Set" "58/102" 35.00
               [NearMint; LightlyPlayed; ModeratelyPlayed; HeavilyPlayed]), s) /\
    5 <= s.
Proof.
  assert (HE : In (DbEntry.mk 5 "Pikachu" "Base Set" "58/102" 35.00
                     [NearMint; LightlyPlayed; ModeratelyPlayed; HeavilyPlayed])
                  MOCK_CARD_DATABASE)
    by (simpl; tauto).
  split; [exact HE|].
  destruct (name_and_set_match_their_entry _ HE) as (s & Hs & H5 & _).
  exists s. split; [exact Hs | exact H5].
Defined.

(** C10.  Every card [parseCardLineIn] returns carries as confidence the
    integer score of its entry divided by 5, and nothing caps it: the line
    "Pikachu VMAX Vivid Voltage 044/185" scores 3 + 2 + 2 + 1 + 1 = 9
    against the second entry and is reported with confidence 1.8. *)
Theorem confidence_is_score_over_five :
  (forall db line g g' c,
     parseCardLineIn db line g = (Some c, g') ->
     exists e s,
       findBestMatch db (toLowerCase (trim line)) (extractCardNumber (trim line))
         = (Some e, s) /\
       Card.confidence c = (ofNat s / 5)%float)
  /\
  (forall g,
     exists e c,
       nth_error MOCK_CARD_DATABASE 1 = Some e /\
       lineScore "Pikachu VMAX Vivid Voltage 044/185" e = 9 /\
       fst (parseCardLine "Pikachu VMAX Vivid Voltage 044/185" g) = Some c /\
       Card.name c = "Pikachu VMAX" /\
       Card.confidence c = (ofNat 9 / 5)%float /\
       Card.confidence c = 1.8%float /\
       PrimFloat.ltb 1.0 (Card.confidence c) = true).
Proof.
  split.
  - intros db line g g' c H.
    apply parseCardLineIn_Some in H as (e & s & Hm & ->).
    apply lineMatch_Some in Hm as (_ & Hm & _).
    exists e, s. split; [exact Hm | reflexivity].
  - intros g. eexists. eexists.
    split; [reflexivity|].
    split; [vm_compute; reflexivity|].
    unfold parseCardLine. rewrite parseCardLineIn_eq.
    split; [vm_compute lineMatch; cbv beta iota; simpl fst; reflexivity|].
    repeat split; vm_compute; reflexivity.
Qed.

Lemma confidence_is_score_over_five_witness :
  parseCardLineIn MOCK_CARD_DATABASE "Charizard" sampleDraws
    = (Some (buildCard (DbEntry.mk 1 "Charizard" "Base Set" "4/102" 450.00
                          [NearMint; LightlyPlayed; ModeratelyPlayed; HeavilyPlayed])
               4 "Charizard" 0.25%float),
       fun n => sampleDraws (S n)) /\
  exists e s,
    findBestMatch MOCK_CARD_DATABASE
      (toLowerCase (trim "Charizard")) (extractCardNumber (trim "Charizard")) = (Some e, s) /\
    Card.confidence
      (buildCard (DbEntry.mk 1 "Charizard" "Base Set" "4/102" 450.00
                    [NearMint; LightlyPlayed; ModeratelyPlayed; HeavilyPlayed])
         4 "Charizard" 0.25%float)
    = (ofNat s / 5)%float.
Proof.
  assert (H : parseCardLineIn MOCK_CARD_DATABASE "Charizard" sampleDraws
    = (Some (buildCard (DbEntry.mk 1 "Charizard" "Base Set" "4/102" 450.00
                          [NearMint; LightlyPlayed; ModeratelyPlayed; HeavilyPlayed])
               4 "Charizard" 0.25%float),
       fun n => sampleDraws (S n))).
  { rewrite parseCardLineIn_eq. reflexivity. }
  split; [exact H|].
  exact (proj1 confidence_is_score_over_five _ _ _ _ _ H).
Defined.

(** ** The condition of a line that says "near mint" *)

(** C1.  On the current catalog the line "Charizard Base Set Near Mint" is
    matched to Charizard, but the condition loop stops at its first keyword,
    "mint", which occurs inside "near mint": the card is graded Mint and
    priced 495.00 with an offer of 346.50, where the scenario expects
    Near Mint, 450.00 and 315.00. *)
Theorem charizard_near_mint_is_graded_Mint :
  forall g : Rand.source,
    fst (parseCardLine "Charizard Base Set Near Mint" g) =
    Some {| Card.id := (1 + g 0%nat)%float;
            Card.name := "Charizard";
            Card.set := "Base Set";
            Card.number := "4/102";
            Card.condition := Mint;
            Card.marketPrice := 495%float;
            Card.ourOffer := 346.5%float;
            Card.confidence := 1.2%float;
            Card.originalText := "Charizard Base Set Near Mint" |}.
Proof.
  intros g. unfold parseCardLine. rewrite parseCardLineIn_eq.
  vm_compute lineMatch. cbv beta iota. simpl fst.
  vm_compute. reflexivity.
Qed.

(** C2.  The keyword table is scanned in the order it is written, "mint"
    before "near mint": every lower-cased text that contains "near mint"
    contains "mint", so the loop answers Mint for it, and so does every card
    [parseCardLineIn] returns for such a line. *)
Theorem near_mint_is_read_as_Mint :
  forall lowerLine : string,
    includes lowerLine "near mint" = true ->
    extractCondition lowerLine = Mint /\
    forall db line g g' c,
      toLowerCase (trim line) = lowerLine ->
      parseCardLineIn db line g = (Some c, g') ->
      Card.condition c = Mint.
Proof.
  intros lowerLine H.
  assert (Hm : extractCondition lowerLine = Mint)
    by now apply extractCondition_mint, includes_near_mint_mint.
  split; [exact Hm|].
  intros db line g g' c Hl Hp.
  apply parseCardLineIn_Some in Hp as (e & s & _ & ->).
  simpl. now rewrite Hl.
Qed.

Lemma near_mint_is_read_as_Mint_witness :
  includes "charizard base set near mint" "near mint" = true /\
  extractCondition "charizard base set near mint" = Mint.
Proof.
  assert (H : includes "charizard base set near mint" "near mint" = true)
    by reflexivity.
  split; [exact H|].
  exact (proj1 (near_mint_is_read_as_Mint "charizard base set near mint" H)).
Defined.

(** The OCR path's normalizer guards the "mint" test with the absence of
    "near", and answers Near Mint on the same text. *)
Lemma normalizeCondition_near_mint :
  OCRService.normalizeCondition (Some "Near Mint") = Some NearMint.
Proof. reflexivity. Qed.

(** ** Prices *)

(** Half-up rounding on two values a cent apart from a tie: 1.005 goes up
    to 1.01, 1.0049 goes down to 1.00, and a negative tie goes up too. *)
Example round2_half_up :
  (Spec.round2 (1005 # 1000) == 101 # 100)%Q /\
  (Spec.round2 (10049 # 10000) == 1)%Q /\
  (Spec.round2 (- (1005 # 1000)) == - (1))%Q.
Proof. repeat split. Qed.

(** [round2] returns a whole number of cents, at most half a cent away
    from its argument, the half going up. *)
Lemma round2_nearest (x : Q) :
  (Spec.round2 x == inject_Z (Qfloor (x * 100 + (1 # 2))) / 100)%Q /\
  (Spec.round2 x - (1 # 200) <= x)%Q /\ (x < Spec.round2 x + (1 # 200))%Q.
Proof.
  assert (E : (Spec.round2 x == inject_Z (Qfloor (x * 100 + (1 # 2))) / 100)%Q).
  { unfold Spec.round2. rewrite (Qmake_Qdiv _ 100). reflexivity. }
  split; [exact E|].
  pose proof (Qfloor_le (x * 100 + (1 # 2))) as Hle.
  pose proof (Qlt_floor (x * 100 + (1 # 2))) as Hlt.
  rewrite inject_Z_plus in Hlt.
  set (n := inject_Z (Qfloor (x * 100 + (1 # 2)))) in *.
  split.
  - rewrite E.
    apply (Qmult_le_r _ _ 100); [reflexivity|].
    setoid_replace ((n / 100 - (1 # 200)) * 100)%Q with (n - (1 # 2))%Q by field.
    apply (Qplus_le_l _ _ (1 # 2)).
    setoid_replace (n - (1 # 2) + (1 # 2))%Q with n by ring.
    exact Hle.
  - rewrite E.
    apply (Qmult_lt_r _ _ 100); [reflexivity|].
    setoid_replace ((n / 100 + (1 # 200)) * 100)%Q with (n + (1 # 2))%Q by field.
    apply (Qplus_lt_l _ _ (1 # 2)).
    setoid_replace (n + (1 # 2) + (1 # 2))%Q with (n + inject_Z 1)%Q by ring.
    exact Hlt.
Qed.

(** C4.  The route matches against the shipped catalog only.  Every card
    [parseCardLine] returns is built from one of its entries, and, with
    [price] the exact value of that entry's [marketPrice]: the reported
    [marketPrice] is the Number that denotes round2(price * multiplier of
    the card's condition), and the reported [ourOffer] is the Number that
    denotes round2(round2(price * multiplier) * 0.7), where round2 is
    half-up rounding to two decimals.  (The source multiplies the product
    before it is rounded; every condition price of the catalog has at most
    two decimals, so the two agree.) *)
Theorem reported_prices_are_half_up_roundings :
  forall (line : string) (g g' : Rand.source) (c : Card.t),
    parseCardLine line g = (Some c, g') ->
    exists (e : DbEntry.t) (price : Q),
      In e MOCK_CARD_DATABASE /\
      Card.name c = DbEntry.name e /\
      exactValue (DbEntry.marketPrice e) = Some price /\
      Card.marketPrice c
      = ofDecimal (Spec.marketPriceAtCondition price (Card.condition c)) /\
      Card.ourOffer c
      = ofDecimal (Spec.offerPrice price (Card.condition c)).
Proof.
  intros line g g' c H.
  apply parseCardLineIn_Some in H as (e & s & Hm & ->).
  apply lineMatch_In in Hm. exists e.
  unfold buildCard. cbn [Card.name Card.marketPrice Card.ourOffer Card.condition].
  generalize (extractCondition (toLowerCase (trim line))). intros k.
  pose proof Hm as He. simpl in He.
  destruct He as [<-|[<-|[<-|[<-|[<-|[<-|[]]]]]]];
    (eexists; split; [exact Hm|]; split; [reflexivity|];
     split; [vm_compute; reflexivity|];
     destruct k; split; vm_compute; reflexivity).
Qed.

Lemma reported_prices_are_half_up_roundings_witness :
  parseCardLine "Pikachu VMAX Vivid Voltage Mint" sampleDraws
  = (Some (buildCard (DbEntry.mk 2 "Pikachu VMAX" "Vivid Voltage" "044/185" 85.00
                        [NearMint; LightlyPlayed; ModeratelyPlayed; HeavilyPlayed])
             7 "Pikachu VMAX Vivid Voltage Mint" 0.25%float),
     fun n => sampleDraws (S n)) /\
  exists (e : DbEntry.t) (price : Q),
    In e MOCK_CARD_DATABASE /\
    exactValue (DbEntry.marketPrice e) = Some price /\
    93.5%float = ofDecimal (Spec.marketPriceAtCondition price Mint) /\
    65.45%float = ofDecimal (Spec.offerPrice price Mint).
Proof.
  assert (H : parseCardLine "Pikachu VMAX Vivid Voltage Mint" sampleDraws
    = (Some (buildCard (DbEntry.mk 2 "Pikachu VMAX" "Vivid Voltage" "044/185" 85.00
                          [NearMint; LightlyPlayed; ModeratelyPlayed; HeavilyPlayed])
               7 "Pikachu VMAX Vivid Voltage Mint" 0.25%float),
       fun n => sampleDraws (S n))).
  { unfold parseCardLine. rewrite parseCardLineIn_eq. reflexivity. }
  split; [exact H|].
  destruct (reported_prices_are_half_up_roundings _ _ _ _ H)
    as (e & price & He & _ & Hp & Hmk & Hof).
  exists e, price. repeat split; assumption.
Defined.

(** ** Supported conditions *)

(** C7, as stated, fails on both counts: no entry of the current catalog
    lists Mint among its variants, and a line graded Mint is priced all the
    same, at the 1.1 multiplier. *)
Lemma mint_is_priced_though_no_entry_lists_it :
  existsb (CardCondition_eqb Mint)
    (List.concat (map DbEntry.variants MOCK_CARD_DATABASE)) = false /\
  option_map
    (fun c => (Card.name c, Card.condition c, Card.marketPrice c, Card.ourOffer c))
    (fst (parseCardLine "Charizard Mint" sampleDraws))
  = Some ("Charizard", Mint, 495%float, 346.5%float).
Proof. split; vm_compute; reflexivity. Qed.

Lemma scoreCard_withVariants (vs : list CardCondition)
    (lowerLine cardNumber : string) (e : DbEntry.t) :
  scoreCard lowerLine cardNumber (withVariants vs e) = scoreCard lowerLine cardNumber e.
Proof. reflexivity. Qed.

Lemma loop_withVariants (vs : list CardCondition) (lowerLine cardNumber : string)
    (db : list DbEntry.t) :
  forall (b : option DbEntry.t) (h : nat),
    fold_left (matchStep lowerLine cardNumber) (map (withVariants vs) db)
      (option_map (withVariants vs) b, h)
    = let '(b', h') := fold_left (matchStep lowerLine cardNumber) db (b, h) in
      (option_map (withVariants vs) b', h').
Proof.
  induction db as [|a db IH]; intros b h; simpl; [reflexivity|].
  rewrite scoreCard_withVariants.
  destruct (h <? scoreCard lowerLine cardNumber a).
  - exact (IH (Some a) _).
  - exact (IH b h).
Qed.

(** C7, amended.  Each entry of the current catalog lists four supported
    conditions (Near Mint, Lightly Played, Moderately Played, Heavily
    Played), and the pricer never reads them: replacing the variants of
    every entry of a catalog by any list leaves the outcome of
    [parseCardLineIn] on every line unchanged, so no condition makes it
    fail. *)
Theorem pricing_never_consults_variants :
  Forall
    (fun e => DbEntry.variants e
              = [NearMint; LightlyPlayed; ModeratelyPlayed; HeavilyPlayed])
    MOCK_CARD_DATABASE
  /\
  (forall (db : list DbEntry.t) (vs : list CardCondition) (line : string)
          (g : Rand.source),
     parseCardLineIn (map (withVariants vs) db) line g = parseCardLineIn db line g).
Proof.
  split; [repeat constructor|].
  intros db vs line g. unfold parseCardLineIn, findBestMatch.
  destruct (negb (truthy (trim line))); [reflexivity|].
  rewrite (loop_withVariants vs _ _ db None 0).
  destruct (fold_left _ db (None, 0)) as [[e|] s]; simpl; [|reflexivity].
  destruct s as [|[|s]]; reflexivity.
Qed.

(** ** The OCR confidence estimator *)

(** C5, as stated, fails: "Charizard VMAX" is not a member of the known-name
    list, yet it earns the known-name bonus because it contains "charizard";
    with no set and no number the source returns 0.1 + 0.4 + 0.2 where the
    formula with list membership gives 0.1 + 0.4. *)
Lemma known_name_bonus_is_not_membership :
  Spec.inAllowList "Charizard VMAX" = false /\
  OCRService.calculateConfidence (Some "Charizard VMAX") None None
  = (0.1 + 0.4 + 0.2)%float /\
  Spec.estimate (Some "Charizard VMAX") None None = 0.5%float /\
  OCRService.calculateConfidence (Some "Charizard VMAX") None None
  <> Spec.estimate (Some "Charizard VMAX") None None.
Proof.
  repeat split; try (vm_compute; reflexivity).
  float_discriminate.
Qed.

(** C5, amended.  The estimator returns
    min(0.1 + 0.4 [name given] + 0.2 [name given and, lower-cased, containing
    a known name] + 0.3 [set given] + 0.2 [number given] + 0.1 [number given
    and containing a slash], 1.0); the result lies between 0 and 1; and
    "Charizard VMAX", "Champion's Path", "74/73" yields exactly 1.0. *)
Theorem calculateConfidence_formula :
  forall cardName setName cardNumber : option string,
    let r := OCRService.calculateConfidence cardName setName cardNumber in
    r = Spec.confidenceOf
          (OCRService.given cardName)
          (OCRService.given cardName
           && OCRService.mentionsKnownPokemon (Spec.nameOf cardName))
          (OCRService.given setName)
          (OCRService.given cardNumber)
          (OCRService.given cardNumber && includes (Spec.nameOf cardNumber) "/")
    /\ PrimFloat.leb 0 r = true
    /\ PrimFloat.leb r 1 = true
    /\ OCRService.calculateConfidence
         (Some "Charizard VMAX") (Some "Champion's Path") (Some "74/73") = 1.0%float.
Proof.
  intros cardName setName cardNumber r. subst r.
  unfold OCRService.calculateConfidence.
  destruct cardName as [n|]; [simpl OCRService.given; simpl Spec.nameOf;
    destruct (truthy n); [destruct (OCRService.mentionsKnownPokemon n)|] |];
  (destruct (OCRService.given setName));
  (destruct cardNumber as [k|]; [simpl OCRService.given; simpl Spec.nameOf;
    destruct (truthy k); [destruct (includes k "/")|] |]);
  vm_compute; repeat split.
Qed.

(** ** The line loop *)

Lemma isMatched_parse (db : list DbEntry.t) (line : string) (g : Rand.source) :
  isMatched db line = true <-> exists c, fst (parseCardLineIn db line g) = Some c.
Proof.
  unfold isMatched. rewrite parseCardLineIn_eq.
  destruct (lineMatch db line) as [[e s]|]; simpl; split; try discriminate; auto.
  - intros _. eexists. reflexivity.
  - intros [c H]. discriminate.
Qed.

(** The loop appends to its two accumulators: the cards of the matched
    lines and the trimmed text of the others, each in the order of the
    lines. *)
Lemma lineLoop_spec (db : list DbEntry.t) (lines : list string) :
  forall (processedCards : list Card.t) (unmatched : list string) (g : Rand.source),
  exists (newCards : list Card.t) (g' : Rand.source),
    lineLoop db lines processedCards unmatched g
    = ((processedCards ++ newCards,
        unmatched ++ map trim (filter (fun l => negb (isMatched db l)) lines))%list, g') /\
    map Card.originalText newCards = map trim (filter (isMatched db) lines) /\
    map withoutId newCards = matchedWithoutId db lines.
Proof.
  induction lines as [|line lines IH]; intros pc um g.
  - exists [], g. simpl. unfold Rand.ret. now rewrite !app_nil_r.
  - simpl lineLoop. unfold Rand.bind. rewrite parseCardLineIn_eq.
    simpl filter. simpl matchedWithoutId.
    destruct (lineMatch db line) as [[e s]|] eqn:E.
    + assert (Hm : isMatched db line = true) by (unfold isMatched; now rewrite E).
      rewrite Hm. simpl negb. cbv iota.
      destruct (IH (pc ++ [buildCard e s line (g 0)])%list um (fun n => g (S n)))
        as (cs & g' & Hrun & Htxt & Hid).
      exists (buildCard e s line (g 0) :: cs), g'.
      rewrite Hrun, <- app_assoc. simpl.
      repeat split; [now rewrite Htxt | now rewrite Hid].
    + assert (Hm : isMatched db line = false) by (unfold isMatched; now rewrite E).
      rewrite Hm. simpl negb. cbv iota.
      destruct (IH pc (um ++ [trim line])%list g) as (cs & g' & Hrun & Htxt & Hid).
      exists cs, g'. rewrite Hrun, <- app_assoc. simpl.
      repeat split; assumption.
Qed.

(** C8.  For every catalog and every sequence of lines, the texts of the
    reported cards are the (trimmed) lines the parser accepts, in input
    order, and [unmatched] holds the (trimmed) lines it rejects, in input
    order; a line is accepted or rejected, never both, so the two sequences
    together have as many elements as the input. *)
Theorem fragments_are_partitioned_in_order :
  forall (db : list DbEntry.t) (lines : list string) (g : Rand.source),
    let r := fst (processLinesIn db lines g) in
    map Card.originalText (fst r) = map trim (filter (isMatched db) lines) /\
    snd r = map trim (filter (fun l => negb (isMatched db l)) lines) /\
    List.length (fst r) + List.length (snd r) = List.length lines.
Proof.
  intros db lines g r. subst r. unfold processLinesIn.
  destruct (lineLoop_spec db lines [] [] g) as (cs & g' & -> & Htxt & _).
  simpl. split; [exact Htxt|]. split; [reflexivity|].
  rewrite <- (length_map Card.originalText cs), Htxt, !length_map.
  clear. induction lines as [|l lines IH]; simpl; [reflexivity|].
  destruct (isMatched db l); simpl; lia.
Qed.

(** The scenario of the specification: of three lines, the first and the
    third match and the second does not. *)
Example partition_of_three_lines :
  let r := fst (processLines ["Charizard"; "random unrelated text xyz"; "Pikachu"]
                  sampleDraws) in
  map Card.name (fst r) = ["Charizard"; "Pikachu"] /\
  map Card.originalText (fst r) = ["Charizard"; "Pikachu"] /\
  snd r = ["random unrelated text xyz"].
Proof. vm_compute. repeat split. Qed.

(** [POST] hands the non-blank lines of the text to the line loop, in the
    order of the text, and reports what the loop returns with its counts. *)
Lemma POSTIn_lines (db : list DbEntry.t) (text : string) (g : Rand.source) :
  truthy text = true ->
  let lines := filter (fun line => truthy (trim line)) (split "010"%char text) in
  lines <> [] ->
  POSTIn db (Some text) g =
  let '((processedCards, unmatched), g') := processLinesIn db lines g in
  (Success {| cards := processedCards;
              totalLines := List.length lines;
              matched := List.length processedCards;
              unmatched := unmatched;
              unmatchedLines := List.length unmatched |}, g').
Proof.
  intros Ht lines Hne. unfold POSTIn. rewrite Ht. cbn [negb].
  fold lines. destruct lines as [|l ls] eqn:E; [contradiction|].
  cbn [List.length Nat.eqb]. unfold Rand.bind.
  destruct (processLinesIn db (l :: ls) g) as [[cs us] g']. reflexivity.
Qed.

(** ** Determinism *)

(** C6, as stated, fails: each matched card's [id] is the entry's id plus
    a fresh [Math.random()] draw, so processing the same line twice in a row
    reports two different cards (ids 1.25 and 1.5 when the draws are 0.25
    and 0.5). *)
Lemma two_runs_report_different_ids :
  map Card.id (fst (fst (processLines ["Charizard"] sampleDraws))) = [1.25%float] /\
  map Card.id
    (fst (fst (processLines ["Charizard"]
                 (snd (processLines ["Charizard"] sampleDraws))))) = [1.5%float] /\
  fst (processLines ["Charizard"] sampleDraws)
  <> fst (processLines ["Charizard"] (snd (processLines ["Charizard"] sampleDraws))).
Proof.
  split; [vm_compute; reflexivity|].
  split; [vm_compute; reflexivity|].
  intros H.
  generalize (f_equal
    (fun r => match fst r with
              | c :: _ => PrimFloat.eqb (Card.id c) 1.25%float
              | [] => false
              end) H).
  vm_compute. discriminate.
Qed.

(** C6, amended.  Whatever [Math.random] draws, two runs over the same
    lines report the same unmatched list and matched cards that agree in
    every field except [id]. *)
Theorem runs_agree_except_on_ids :
  forall (db : list DbEntry.t) (lines : list string) (g1 g2 : Rand.source),
    map withoutId (fst (fst (processLinesIn db lines g1)))
    = map withoutId (fst (fst (processLinesIn db lines g2))) /\
    snd (fst (processLinesIn db lines g1)) = snd (fst (processLinesIn db lines g2)).
Proof.
  intros db lines g1 g2. unfold processLinesIn.
  destruct (lineLoop_spec db lines [] [] g1) as (cs1 & g1' & -> & _ & H1).
  destruct (lineLoop_spec db lines [] [] g2) as (cs2 & g2' & -> & _ & H2).
  simpl. now rewrite H1, H2.
Qed.

(* ================================================================== *)
(** * Further properties of the text route *)

(** ** White space and letter case *)

Lemma trimEnd_truthy (s : string) : truthy (trimEnd s) = negb (blank s).
Proof.
  induction s as [|c s IH]; [reflexivity|].
  unfold blank in *. simpl.
  destruct (trimEnd s) eqn:E; simpl in *.
  - destruct (allChars isWhiteSpace s); [|discriminate].
    rewrite andb_true_r. now destruct (isWhiteSpace c).
  - destruct (allChars isWhiteSpace s); [discriminate|].
    now rewrite andb_false_r.
Qed.

Lemma blank_trimStart (s : string) : blank (trimStart s) = blank s.
Proof.
  unfold blank. induction s as [|c s IH]; [reflexivity|]. simpl.
  destruct (isWhiteSpace c) eqn:E; simpl; [exact IH | now rewrite E].
Qed.

(** A string trims to the empty string exactly when it is blank. *)
Lemma truthy_trim (s : string) : truthy (trim s) = negb (blank s).
Proof. unfold trim. now rewrite trimEnd_truthy, blank_trimStart. Qed.

Lemma trimEnd_idempotent (s : string) : trimEnd (trimEnd s) = trimEnd s.
Proof.
  induction s as [|c s IH]; [reflexivity|]. simpl.
  destruct (trimEnd s) as [|d r] eqn:E.
  - destruct (isWhiteSpace c) eqn:W; simpl; [reflexivity | now rewrite W].
  - simpl in IH |- *. now rewrite IH.
Qed.

Lemma trimStart_fixed (s : string) :
  match s with
  | EmptyString => true
  | String c _ => negb (isWhiteSpace c)
  end = true ->
  trimStart s = s.
Proof.
  destruct s as [|c s]; [reflexivity|]. simpl.
  now destruct (isWhiteSpace c).
Qed.

Lemma trimStart_head (s : string) :
  match trimStart s with
  | EmptyString => true
  | String c _ => negb (isWhiteSpace c)
  end = true.
Proof.
  induction s as [|c s IH]; [reflexivity|]. simpl.
  destruct (isWhiteSpace c) eqn:W; [exact IH | simpl; now rewrite W].
Qed.

Lemma trimEnd_head (s : string) :
  match s with
  | EmptyString => true
  | String c _ => negb (isWhiteSpace c)
  end = true ->
  match trimEnd s with
  | EmptyString => true
  | String c _ => negb (isWhiteSpace c)
  end = true.
Proof.
  destruct s as [|c s]; [reflexivity|]. simpl. intros H.
  destruct (trimEnd s); [|exact H].
  destruct (isWhiteSpace c) eqn:W; [discriminate | simpl; now rewrite W].
Qed.

Lemma trim_idempotent (s : string) : trim (trim s) = trim s.
Proof.
  unfold trim.
  rewrite (trimStart_fixed (trimEnd (trimStart s))).
  - apply trimEnd_idempotent.
  - apply trimEnd_head, trimStart_head.
Qed.

Lemma isWhiteSpace_lowerChar (c : ascii) :
  isWhiteSpace (lowerChar c) = isWhiteSpace c.
Proof. destruct c as [[] [] [] [] [] [] [] []]; reflexivity. Qed.

Lemma isDigit_lowerChar (c : ascii) : isDigit (lowerChar c) = isDigit c.
Proof. destruct c as [[] [] [] [] [] [] [] []]; reflexivity. Qed.

Lemma lowerChar_digit (c : ascii) : isDigit c = true -> lowerChar c = c.
Proof. destruct c as [[] [] [] [] [] [] [] []]; (reflexivity || discriminate). Qed.

Lemma lowerChar_slash (c : ascii) :
  Ascii.eqb (lowerChar c) "/"%char = Ascii.eqb c "/"%char.
Proof. destruct c as [[] [] [] [] [] [] [] []]; reflexivity. Qed.

Lemma lowerChar_hash (c : ascii) :
  Ascii.eqb (lowerChar c) "#"%char = Ascii.eqb c "#"%char.
Proof. destruct c as [[] [] [] [] [] [] [] []]; reflexivity. Qed.

Lemma truthy_toLowerCase (s : string) : truthy (toLowerCase s) = truthy s.
Proof. now destruct s. Qed.

Lemma trimStart_toLowerCase (s : string) :
  trimStart (toLowerCase s) = toLowerCase (trimStart s).
Proof.
  induction s as [|c s IH]; [reflexivity|]. simpl.
  rewrite isWhiteSpace_lowerChar. now destruct (isWhiteSpace c).
Qed.

Lemma trimEnd_toLowerCase (s : string) :
  trimEnd (toLowerCase s) = toLowerCase (trimEnd s).
Proof.
  induction s as [|c s IH]; [reflexivity|]. simpl.
  rewrite IH, isWhiteSpace_lowerChar.
  destruct (trimEnd s); simpl; [now destruct (isWhiteSpace c) | reflexivity].
Qed.

Lemma trim_toLowerCase (s : string) : trim (toLowerCase s) = toLowerCase (trim s).
Proof. unfold trim. now rewrite trimStart_toLowerCase, trimEnd_toLowerCase. Qed.

(** ** The card-number pattern ignores letter case *)

Lemma spanDigits_toLowerCase (s : string) :
  spanDigits (toLowerCase s)
  = (fst (spanDigits s), toLowerCase (snd (spanDigits s))).
Proof.
  induction s as [|c s IH]; [reflexivity|]. simpl.
  rewrite isDigit_lowerChar. destruct (isDigit c) eqn:D.
  - rewrite IH, (lowerChar_digit c D). now destruct (spanDigits s).
  - reflexivity.
Qed.

(** The two anchored alternatives, with the test of the leading character
    written as a comparison. *)
Lemma matchFractionAt_eq (s : string) :
  matchFractionAt s =
  let '(d1, r) := spanDigits s in
  if truthy d1 then
    match r with
    | EmptyString => None
    | String c r' =>
        if Ascii.eqb c "/"%char then
          let '(d2, _) := spanDigits r' in
          if truthy d2 then Some (d1 ++ "/" ++ d2) else None
        else None
    end
  else None.
Proof.
  unfold matchFractionAt. destruct (spanDigits s) as [d1 r].
  destruct (truthy d1); [|reflexivity].
  destruct r as [|c r]; [reflexivity|].
  destruct c as [[] [] [] [] [] [] [] []]; reflexivity.
Qed.

Lemma matchHashAt_eq (s : string) :
  matchHashAt s =
  match s with
  | EmptyString => None
  | String c r =>
      if Ascii.eqb c "#"%char then
        let '(d, _) := spanDigits r in
        if truthy d then Some (String "#"%char d) else None
      else None
  end.
Proof.
  destruct s as [|c r]; [reflexivity|].
  destruct c as [[] [] [] [] [] [] [] []]; reflexivity.
Qed.

Lemma matchFractionAt_toLowerCase (s : string) :
  matchFractionAt (toLowerCase s) = matchFractionAt s.
Proof.
  rewrite !matchFractionAt_eq, spanDigits_toLowerCase.
  destruct (spanDigits s) as [d1 r]. simpl.
  destruct (truthy d1); [|reflexivity].
  destruct r as [|c r]; [reflexivity|]. simpl.
  rewrite lowerChar_slash, spanDigits_toLowerCase.
  destruct (Ascii.eqb c "/"%char); [|reflexivity].
  now destruct (spanDigits r).
Qed.

Lemma matchHashAt_toLowerCase (s : string) :
  matchHashAt (toLowerCase s) = matchHashAt s.
Proof.
  rewrite !matchHashAt_eq. destruct s as [|c r]; [reflexivity|]. simpl.
  rewrite lowerChar_hash, spanDigits_toLowerCase.
  destruct (Ascii.eqb c "#"%char); [|reflexivity].
  now destruct (spanDigits r).
Qed.

Lemma matchCardNumber_toLowerCase (s : string) :
  matchCardNumber (toLowerCase s) = matchCardNumber s.
Proof.
  induction s as [|c s IH].
  - reflexivity.
  - change (toLowerCase (String c s)) with (String (lowerChar c) (toLowerCase s)).
    cbn [matchCardNumber].
    change (String (lowerChar c) (toLowerCase s)) with (toLowerCase (String c s)).
    rewrite matchFractionAt_toLowerCase, matchHashAt_toLowerCase, IH.
    reflexivity.
Qed.

(** X3.  Matching ignores letter case: two lines that are equal once
    lower-cased are matched to the same entry with the same score, and
    [parseCardLineIn] returns for them cards that differ at most in
    [originalText]. *)
Theorem parseCardLineIn_ignores_case :
  forall (db : list DbEntry.t) (line1 line2 : string),
    toLowerCase line1 = toLowerCase line2 ->
    lineMatch db line1 = lineMatch db line2 /\
    forall g,
      option_map withoutOriginalText (fst (parseCardLineIn db line1 g))
      = option_map withoutOriginalText (fst (parseCardLineIn db line2 g)).
Proof.
  intros db line1 line2 H.
  assert (Hl : toLowerCase (trim line1) = toLowerCase (trim line2))
    by now rewrite <- !trim_toLowerCase, H.
  assert (Hn : extractCardNumber (trim line1) = extractCardNumber (trim line2)).
  { unfold extractCardNumber.
    now rewrite <- (matchCardNumber_toLowerCase (trim line1)), Hl,
      matchCardNumber_toLowerCase. }
  assert (Ht : truthy (trim line1) = truthy (trim line2))
    by now rewrite <- (truthy_toLowerCase (trim line1)), Hl, truthy_toLowerCase.
  assert (Hm : lineMatch db line1 = lineMatch db line2).
  { unfold lineMatch. now rewrite Ht, Hl, Hn. }
  split; [exact Hm|].
  intros g. rewrite !parseCardLineIn_eq, <- Hm.
  destruct (lineMatch db line1) as [[e s]|]; [|reflexivity].
  simpl. unfold withoutOriginalText, buildCard. simpl. now rewrite Hl.
Qed.

Lemma parseCardLineIn_ignores_case_witness :
  toLowerCase "CHARIZARD base SET lp" = toLowerCase "charizard Base Set LP" /\
  lineMatch MOCK_CARD_DATABASE "CHARIZARD base SET lp"
  = lineMatch MOCK_CARD_DATABASE "charizard Base Set LP".
Proof.
  assert (H : toLowerCase "CHARIZARD base SET lp" = toLowerCase "charizard Base Set LP")
    by reflexivity.
  split; [exact H|].
  exact (proj1 (parseCardLineIn_ignores_case MOCK_CARD_DATABASE _ _ H)).
Defined.

(** X4.  Leading and trailing white space is ignored: the parser returns
    for a line what it returns for the line already trimmed. *)
Theorem parseCardLineIn_ignores_outer_white_space :
  forall (db : list DbEntry.t) (line : string) (g : Rand.source),
    parseCardLineIn db (trim line) g = parseCardLineIn db line g.
Proof.
  intros db line g. unfold parseCardLineIn. now rewrite trim_idempotent.
Qed.

(** ** What [POST] answers *)

Lemma split_not_nil (sep : ascii) (s : string) : split sep s <> [].
Proof.
  induction s as [|c s IH]; simpl; [discriminate|].
  destruct (Ascii.eqb c sep); [discriminate|].
  destruct (split sep s); discriminate.
Qed.

(** The lines of a text are all blank exactly when the text is. *)
Lemma split_blank (sep : ascii) (s : string) :
  isWhiteSpace sep = true ->
  forallb blank (split sep s) = blank s.
Proof.
  intros Hsep. unfold blank. induction s as [|c s IH]; [reflexivity|]. simpl.
  destruct (Ascii.eqb_spec c sep) as [->|Hne].
  - simpl. now rewrite IH, Hsep.
  - destruct (split sep s) as [|piece rest] eqn:E.
    + now destruct (split_not_nil sep s).
    + simpl in *. now rewrite <- IH, andb_assoc.
Qed.

Lemma linesOf_nil (text : string) : linesOf text = [] <-> blank text = true.
Proof.
  unfold linesOf. rewrite <- (split_blank "010"%char text eq_refl).
  induction (split "010"%char text) as [|l ls IH]; simpl; [tauto|].
  rewrite truthy_trim. destruct (blank l); simpl; [exact IH|].
  split; discriminate.
Qed.

Lemma linesOf_trimmed (text line : string) :
  In line (linesOf text) -> blank line = false.
Proof.
  unfold linesOf. intros H. apply filter_In in H as [_ H].
  rewrite truthy_trim in H. now destruct (blank line).
Qed.

Lemma POSTIn_blank (db : list DbEntry.t) (text : string) (g : Rand.source) :
  blank text = true ->
  fst (POSTIn db (Some text) g)
  = BadRequest (if truthy text then "No valid card entries found"
                else "No text provided").
Proof.
  intros B. unfold POSTIn. destruct (truthy text); [|reflexivity]. cbn [negb].
  fold (linesOf text). apply linesOf_nil in B. now rewrite B.
Qed.

(** X1.  What [POST] answers, by request body: 500 "Failed to process
    text" when the body is not JSON or is [null]; 400 "No text provided" when
    it has no string [text] or an empty one; 400 "No valid card entries
    found" when [text] is not empty but made of white space only; success on
    every other text. *)
Theorem POST_answer_by_body :
  forall (db : list DbEntry.t) (g : Rand.source),
    fst (POSTRequestIn db InvalidJson g) = ServerError "Failed to process text" /\
    fst (POSTRequestIn db JsonNull g) = ServerError "Failed to process text" /\
    fst (POSTRequestIn db (JsonValue None) g) = BadRequest "No text provided" /\
    forall text : string,
      (blank text = true /\
       fst (POSTRequestIn db (JsonValue (Some text)) g)
       = BadRequest (if truthy text then "No valid card entries found"
                     else "No text provided"))
      \/
      (blank text = false /\
       exists data,
         fst (POSTRequestIn db (JsonValue (Some text)) g) = Success data).
Proof.
  intros db g. repeat (split; [reflexivity|]). intros text.
  cbn [POSTRequestIn].
  destruct (blank text) eqn:B; [left | right]; split; try reflexivity.
  - now apply POSTIn_blank.
  - assert (Ht : truthy text = true) by (destruct text; [discriminate | reflexivity]).
    assert (Hne : linesOf text <> []).
    { intros E. apply linesOf_nil in E. congruence. }
    rewrite (POSTIn_lines db text g Ht Hne). fold (linesOf text).
    destruct (processLinesIn db (linesOf text) g) as [[cs us] g'].
    eexists. reflexivity.
Qed.

(** The no-break space counts as white space, as it does for [trim]: a text
    made of it alone is answered 400. *)
Example POST_no_break_space :
  fst (POST (JsonValue (Some (String (ascii_of_nat 160) EmptyString))) sampleDraws)
  = BadRequest "No valid card entries found".
Proof. reflexivity. Qed.

(** X2.  A successful answer of [POST] is consistent: there is at least
    one line, every line is counted as matched or as unmatched, the counts
    are the lengths of the two lists, and no unmatched entry is blank or
    carries outer white space. *)
Theorem POST_success_counts :
  forall (db : list DbEntry.t) (text : string) (g : Rand.source)
         (data : ProcessTextResponse),
    fst (POSTIn db (Some text) g) = Success data ->
    1 <= totalLines data /\
    matched data + unmatchedLines data = totalLines data /\
    matched data = List.length (cards data) /\
    unmatchedLines data = List.length (unmatched data) /\
    Forall (fun u => blank u = false /\ trim u = u) (unmatched data) /\
    Forall (fun c => blank (Card.originalText c) = false
                     /\ trim (Card.originalText c) = Card.originalText c)
           (cards data).
Proof.
  intros db text g data H.
  destruct (blank text) eqn:B.
  { rewrite (POSTIn_blank db text g B) in H. discriminate. }
  assert (Ht : truthy text = true) by (destruct text; [discriminate | reflexivity]).
  assert (Hne : linesOf text <> []).
  { intros E. apply linesOf_nil in E. congruence. }
  rewrite (POSTIn_lines db text g Ht Hne) in H. fold (linesOf text) in H.
  unfold processLinesIn in H.
  destruct (lineLoop_spec db (linesOf text) [] [] g) as (cs & g' & Hrun & Htxt & _).
  rewrite Hrun in H. simpl in H. inversion H; subst data; clear H. simpl.
  assert (Hlen : List.length cs
                 + List.length (map trim (filter (fun l => negb (isMatched db l))
                                            (linesOf text)))
                 = List.length (linesOf text)).
  { rewrite <- (length_map Card.originalText cs), Htxt, !length_map.
    clear. induction (linesOf text) as [|l ls IH]; [reflexivity|].
    cbn [filter]. destruct (isMatched db l); cbn [negb List.length]; lia. }
  assert (Hall : forall P : string -> bool,
            Forall (fun u => blank u = false /\ trim u = u)
              (map trim (filter P (linesOf text)))).
  { intros P. apply Forall_forall. intros u Hu.
    apply in_map_iff in Hu as (l & <- & Hl). apply filter_In in Hl as [Hl _].
    apply linesOf_trimmed in Hl.
    split; [|apply trim_idempotent].
    pose proof (truthy_trim (trim l)) as E.
    rewrite trim_idempotent, truthy_trim, Hl in E.
    now destruct (blank (trim l)). }
  repeat split; try reflexivity.
  - destruct (linesOf text); [contradiction | simpl; lia].
  - exact Hlen.
  - apply Hall.
  - specialize (Hall (isMatched db)). rewrite <- Htxt in Hall.
    rewrite Forall_map in Hall. exact Hall.
Qed.

Lemma POST_success_counts_witness :
  fst (POSTIn MOCK_CARD_DATABASE (Some "Charizard") sampleDraws)
  = Success {| cards := [buildCard (DbEntry.mk 1 "Charizard" "Base Set" "4/102" 450.00
                            [NearMint; LightlyPlayed; ModeratelyPlayed; HeavilyPlayed])
                           4 "Charizard" 0.25%float];
               totalLines := 1;
               matched := 1;
               unmatched := [];
               unmatchedLines := 0 |} /\
  1 <= 1 /\ 1 + 0 = 1.
Proof.
  assert (H : fst (POSTIn MOCK_CARD_DATABASE (Some "Charizard") sampleDraws)
    = Success {| cards := [buildCard (DbEntry.mk 1 "Charizard" "Base Set" "4/102" 450.00
                              [NearMint; LightlyPlayed; ModeratelyPlayed; HeavilyPlayed])
                             4 "Charizard" 0.25%float];
                 totalLines := 1;
                 matched := 1;
                 unmatched := [];
                 unmatchedLines := 0 |}) by reflexivity.
  split; [exact H|].
  destruct (POST_success_counts _ _ _ _ H) as (H1 & H2 & _).
  split; [exact H1 | exact H2].
Defined.

(** ** Scores, confidence and prices *)

Lemma word_loop_le (lowerLine : string) (words : list string) (score : nat) :
  fold_left
    (fun score word => if includes lowerLine word then score + 1 else score)
    words score
  <= score + List.length words.
Proof.
  revert score. induction words as [|w ws IH]; intros score; simpl; [lia|].
  destruct (includes lowerLine w); specialize (IH (score + 1)) as IH1;
    specialize (IH score) as IH0; lia.
Qed.

(** The score of an entry is at most 7 plus the number of words of its
    name. *)
Lemma scoreCard_le (lowerLine cardNumber : string) (card : DbEntry.t) :
  scoreCard lowerLine cardNumber card
  <= 7 + List.length (split " "%char (toLowerCase (DbEntry.name card))).
Proof.
  unfold scoreCard.
  etransitivity; [apply word_loop_le|].
  destruct (includes lowerLine (toLowerCase (DbEntry.name card)));
    destruct (includes lowerLine (toLowerCase (DbEntry.set card)));
    destruct (truthy cardNumber && includes (DbEntry.number card) cardNumber);
    simpl; lia.
Qed.

Lemma lineMatch_score (db : list DbEntry.t) (line : string) (e : DbEntry.t) (s : nat) :
  lineMatch db line = Some (e, s) -> s = lineScore line e /\ 2 <= s.
Proof.
  intros H. apply lineMatch_Some in H as (_ & H & Hs). split; [|exact Hs].
  destruct (loop_first_max (toLowerCase (trim line)) (extractCardNumber (trim line))
              db None 0) as (_ & e' & _ & _ & He & _ & _ & Hrun).
  - pose proof (loop_score (toLowerCase (trim line)) (extractCardNumber (trim line))
                  db None 0) as Hsc.
    unfold findBestMatch in H. rewrite H in Hsc. simpl in Hsc. lia.
  - unfold findBestMatch in H. rewrite H in Hrun. now inversion Hrun.
Qed.

(** X5.  On the current catalog every reported card has a score between 2
    and 9, hence a confidence between 0.4 and 1.8. *)
Theorem parseCardLine_confidence_range :
  forall (line : string) (g g' : Rand.source) (c : Card.t),
    parseCardLine line g = (Some c, g') ->
    exists s : nat,
      2 <= s <= 9 /\
      Card.confidence c = (ofNat s / 5)%float /\
      PrimFloat.leb 0.4 (Card.confidence c) = true /\
      PrimFloat.leb (Card.confidence c) 1.8 = true.
Proof.
  intros line g g' c H.
  apply parseCardLineIn_Some in H as (e & s & Hm & ->).
  pose proof (lineMatch_In _ _ _ _ Hm) as He.
  apply lineMatch_score in Hm as [Hs H2].
  assert (H9 : s <= 9).
  { rewrite Hs. unfold lineScore. etransitivity; [apply scoreCard_le|].
    simpl in He. destruct He as [<-|[<-|[<-|[<-|[<-|[<-|[]]]]]]]; vm_compute; lia. }
  exists s. split; [lia|]. split; [reflexivity|].
  clear Hs. unfold buildCard. simpl Card.confidence.
  do 10 (destruct s as [|s]; [first [lia | split; vm_compute; reflexivity]|]).
  lia.
Qed.

Lemma parseCardLine_confidence_range_witness :
  parseCardLine "Pikachu VMAX Vivid Voltage 044/185" sampleDraws
  = (Some (buildCard (DbEntry.mk 2 "Pikachu VMAX" "Vivid Voltage" "044/185" 85.00
                        [NearMint; LightlyPlayed; ModeratelyPlayed; HeavilyPlayed])
             9 "Pikachu VMAX Vivid Voltage 044/185" 0.25%float),
     fun n => sampleDraws (S n)) /\
  exists s : nat, 2 <= s <= 9.
Proof.
  assert (H : parseCardLine "Pikachu VMAX Vivid Voltage 044/185" sampleDraws
    = (Some (buildCard (DbEntry.mk 2 "Pikachu VMAX" "Vivid Voltage" "044/185" 85.00
                          [NearMint; LightlyPlayed; ModeratelyPlayed; HeavilyPlayed])
               9 "Pikachu VMAX Vivid Voltage 044/185" 0.25%float),
       fun n => sampleDraws (S n))).
  { unfold parseCardLine. rewrite parseCardLineIn_eq. reflexivity. }
  split; [exact H|].
  destruct (parseCardLine_confidence_range _ _ _ _ H) as (s & Hs & _).
  exists s. exact Hs.
Defined.

(** X6.  On the current catalog every reported card has a positive offer
    that does not exceed its market price, and a market price of at most
    495. *)
Theorem parseCardLine_offer_below_market :
  forall (line : string) (g g' : Rand.source) (c : Card.t),
    parseCardLine line g = (Some c, g') ->
    PrimFloat.ltb 0 (Card.ourOffer c) = true /\
    PrimFloat.leb (Card.ourOffer c) (Card.marketPrice c) = true /\
    PrimFloat.leb (Card.marketPrice c) 495 = true.
Proof.
  intros line g g' c H.
  apply parseCardLineIn_Some in H as (e & s & Hm & ->).
  apply lineMatch_In in Hm. unfold buildCard.
  simpl Card.ourOffer. simpl Card.marketPrice.
  generalize (extractCondition (toLowerCase (trim line))). intros k.
  simpl in Hm. destruct Hm as [<-|[<-|[<-|[<-|[<-|[<-|[]]]]]]];
    destruct k; vm_compute; repeat split.
Qed.

Lemma parseCardLine_offer_below_market_witness :
  parseCardLine "Blastoise lp" sampleDraws
  = (Some (buildCard (DbEntry.mk 3 "Blastoise" "Base Set" "2/102" 180.00
                        [NearMint; LightlyPlayed; ModeratelyPlayed; HeavilyPlayed])
             4 "Blastoise lp" 0.25%float),
     fun n => sampleDraws (S n)) /\
  PrimFloat.leb 100.8 144 = true.
Proof.
  assert (H : parseCardLine "Blastoise lp" sampleDraws
    = (Some (buildCard (DbEntry.mk 3 "Blastoise" "Base Set" "2/102" 180.00
                          [NearMint; LightlyPlayed; ModeratelyPlayed; HeavilyPlayed])
               4 "Blastoise lp" 0.25%float),
       fun n => sampleDraws (S n))).
  { unfold parseCardLine. rewrite parseCardLineIn_eq. reflexivity. }
  split; [exact H|].
  exact (proj1 (proj2 (parseCardLine_offer_below_market _ _ _ _ H))).
Defined.

(** ** The line loop: composition and random draws *)

(** Running the loop from given accumulators appends what it reports from
    empty ones. *)
Lemma lineLoop_accumulators (db : list DbEntry.t) (lines : list string) :
  forall (processedCards : list Card.t) (unmatched : list string) (g : Rand.source),
    lineLoop db lines processedCards unmatched g
    = let '((cs, us), g') := lineLoop db lines [] [] g in
      ((processedCards ++ cs, unmatched ++ us)%list, g').
Proof.
  induction lines as [|line lines IH]; intros pc um g.
  - simpl. unfold Rand.ret. now rewrite !app_nil_r.
  - simpl lineLoop. unfold Rand.bind.
    destruct (parseCardLineIn db line g) as [[c|] g1].
    + rewrite (IH (pc ++ [c])%list um g1), (IH [c] [] g1).
      destruct (lineLoop db lines [] [] g1) as [[cs us] g2].
      now rewrite <- app_assoc.
    + rewrite (IH pc (um ++ [trim line])%list g1), (IH [] [trim line] g1).
      destruct (lineLoop db lines [] [] g1) as [[cs us] g2].
      now rewrite <- app_assoc.
Qed.

Lemma lineLoop_app (db : list DbEntry.t) (lines1 lines2 : list string) :
  forall (processedCards : list Card.t) (unmatched : list string) (g : Rand.source),
    lineLoop db (lines1 ++ lines2) processedCards unmatched g
    = let '((cs, us), g') := lineLoop db lines1 processedCards unmatched g in
      lineLoop db lines2 cs us g'.
Proof.
  induction lines1 as [|line lines1 IH]; intros pc um g; [reflexivity|].
  simpl. unfold Rand.bind.
  destruct (parseCardLineIn db line g) as [[c|] g1]; apply IH.
Qed.

(** X7.  Processing a batch is processing its first part and then, with
    the random draws that are left, its second part: the cards and the
    unmatched lines of the two parts are concatenated. *)
Theorem processLinesIn_app :
  forall (db : list DbEntry.t) (lines1 lines2 : list string) (g : Rand.source),
    processLinesIn db (lines1 ++ lines2) g
    = let '((cs1, us1), g1) := processLinesIn db lines1 g in
      let '((cs2, us2), g2) := processLinesIn db lines2 g1 in
      ((cs1 ++ cs2, us1 ++ us2)%list, g2).
Proof.
  intros db lines1 lines2 g. unfold processLinesIn.
  rewrite lineLoop_app.
  destruct (lineLoop db lines1 [] [] g) as [[cs1 us1] g1].
  apply lineLoop_accumulators.
Qed.

(** The cards the loop adds are built, in order, from successive draws, and
    the stream it leaves is the one it got minus one draw per card. *)
Lemma lineLoop_draws (db : list DbEntry.t) (lines : list string) :
  forall (g : Rand.source),
  exists (cs : list Card.t) (us : list string) (g' : Rand.source),
    lineLoop db lines [] [] g = ((cs, us), g') /\
    (forall n, g' n = g (List.length cs + n)) /\
    (forall k c, nth_error cs k = Some c ->
       exists e s line,
         In line lines /\ lineMatch db line = Some (e, s) /\
         c = buildCard e s line (g k)).
Proof.
  induction lines as [|line lines IH]; intros g.
  - exists [], [], g. simpl. repeat split.
    intros k c H. destruct k; discriminate.
  - simpl lineLoop. unfold Rand.bind. rewrite parseCardLineIn_eq.
    destruct (lineMatch db line) as [[e s]|] eqn:E.
    + destruct (IH (fun n => g (S n))) as (cs & us & g' & Hrun & Hg & Hc).
      rewrite lineLoop_accumulators, Hrun.
      exists (buildCard e s line (g 0) :: cs), us, g'. simpl.
      split; [reflexivity|]. split.
      * intros n. rewrite Hg. reflexivity.
      * intros [|k] c H; simpl in H.
        -- inversion H. exists e, s, line. repeat split; auto.
        -- destruct (Hc k c H) as (e' & s' & l & Hl & Hm & ->).
           exists e', s', l. repeat split; auto.
    + destruct (IH g) as (cs & us & g' & Hrun & Hg & Hc).
      rewrite lineLoop_accumulators, Hrun.
      exists cs, (trim line :: us), g'. simpl.
      split; [reflexivity|]. split; [exact Hg|].
      intros k c H. destruct (Hc k c H) as (e' & s' & l & Hl & Hm & ->).
      exists e', s', l. repeat split; auto.
Qed.

(** X8.  [Math.random] is called once for each reported card and never
    otherwise: the k-th card's id is the id of its catalog entry plus the
    k-th draw, and the batch leaves the stream of draws advanced by the
    number of cards. *)
Theorem processLinesIn_draws :
  forall (db : list DbEntry.t) (lines : list string) (g : Rand.source),
    (forall n,
       snd (processLinesIn db lines g) n
       = g (List.length (fst (fst (processLinesIn db lines g))) + n)) /\
    (forall k c,
       nth_error (fst (fst (processLinesIn db lines g))) k = Some c ->
       exists e,
         In e db /\
         Card.name c = DbEntry.name e /\
         Card.id c = (ofZ (DbEntry.id e) + g k)%float).
Proof.
  intros db lines g. unfold processLinesIn.
  destruct (lineLoop_draws db lines g) as (cs & us & g' & -> & Hg & Hc).
  simpl. split; [exact Hg|].
  intros k c H. destruct (Hc k c H) as (e & s & l & _ & Hm & ->).
  exists e. split; [now apply lineMatch_In in Hm|]. split; reflexivity.
Qed.

(** ** The extracted card number *)

Lemma allChars_app (p : ascii -> bool) (a b : string) :
  allChars p (a ++ b) = allChars p a && allChars p b.
Proof.
  induction a as [|c a IH]; [reflexivity|]. simpl.
  now rewrite IH, andb_assoc.
Qed.

Lemma allChars_impl (p q : ascii -> bool) (s : string) :
  (forall c, p c = true -> q c = true) ->
  allChars p s = true -> allChars q s = true.
Proof.
  intros Hpq. induction s as [|c s IH]; [reflexivity|]. simpl.
  intros H. apply andb_true_iff in H as [Hc Hs].
  now rewrite (Hpq c Hc), (IH Hs).
Qed.

Lemma spanDigits_digits (s : string) :
  allChars isDigit (fst (spanDigits s)) = true.
Proof.
  induction s as [|c s IH]; [reflexivity|]. simpl.
  destruct (isDigit c) eqn:D; [|reflexivity].
  destruct (spanDigits s) as [d r]. simpl in *. now rewrite D, IH.
Qed.

(** A string without the character [c] does not contain it as a
    substring, and [replace] leaves it alone. *)
Lemma includes_char_absent (c : ascii) (s : string) :
  allChars (fun x => negb (Ascii.eqb x c)) s = true ->
  includes s (String c EmptyString) = false.
Proof.
  induction s as [|x s IH]; [reflexivity|]. simpl. intros H.
  apply andb_true_iff in H as [Hx Hs].
  rewrite (IH Hs). destruct (Ascii.eqb x c); [discriminate | reflexivity].
Qed.

Lemma replaceChar_absent (c : ascii) (s : string) :
  allChars (fun x => negb (Ascii.eqb x c)) s = true -> replaceChar c s = s.
Proof.
  induction s as [|x s IH]; [reflexivity|]. simpl. intros H.
  apply andb_true_iff in H as [Hx Hs].
  destruct (Ascii.eqb x c); [discriminate | now rewrite (IH Hs)].
Qed.

Lemma digit_not_hash (c : ascii) :
  isDigit c = true -> negb (Ascii.eqb c "#"%char) = true.
Proof. destruct c as [[] [] [] [] [] [] [] []]; (reflexivity || discriminate). Qed.

Lemma matchCardNumber_Some (s m : string) :
  matchCardNumber s = Some m ->
  (exists a b, m = a ++ "/" ++ b /\ numberShape m)
  \/ (exists d, m = String "#"%char d /\ numberShape d).
Proof.
  induction s as [|c s IH].
  - discriminate.
  - intros H. cbn [matchCardNumber] in H.
    destruct (matchFractionAt (String c s)) as [f|] eqn:F.
    + inversion H; subst f. left.
      rewrite matchFractionAt_eq in F.
      pose proof (spanDigits_digits (String c s)) as D1.
      destruct (spanDigits (String c s)) as [d1 r]. simpl in D1.
      destruct (truthy d1) eqn:T1; [|discriminate].
      destruct r as [|x r]; [discriminate|].
      destruct (Ascii.eqb x "/"%char); [|discriminate].
      pose proof (spanDigits_digits r) as D2.
      destruct (spanDigits r) as [d2 r2]. simpl in D2.
      destruct (truthy d2) eqn:T2; [|discriminate].
      inversion F. exists d1, d2. split; [reflexivity|].
      now constructor.
    + destruct (matchHashAt (String c s)) as [h|] eqn:Hh.
      * inversion H; subst h. right.
        rewrite matchHashAt_eq in Hh.
        destruct (Ascii.eqb c "#"%char); [|discriminate].
        pose proof (spanDigits_digits s) as D.
        destruct (spanDigits s) as [d r]. simpl in D.
        destruct (truthy d) eqn:T; [|discriminate].
        inversion Hh. exists d. split; [reflexivity|].
        now constructor 2.
      * exact (IH H).
Qed.

Lemma numberShape_no_hash (m : string) :
  numberShape m ->
  allChars (fun x => negb (Ascii.eqb x "#"%char)) m = true.
Proof.
  intros [a b _ Da _ Db|d _ Dd].
  - rewrite !allChars_app.
    rewrite (allChars_impl _ _ a digit_not_hash Da).
    rewrite (allChars_impl _ _ b digit_not_hash Db).
    reflexivity.
  - exact (allChars_impl _ _ _ digit_not_hash Dd).
Qed.

(** X9.  The card number taken from a line is empty (no match), a run of
    digits (from [#123]) or two runs of digits around a slash; it never
    contains the hash. *)
Theorem extractCardNumber_shape :
  forall trimmedLine : string,
    (extractCardNumber trimmedLine = EmptyString
     \/ numberShape (extractCardNumber trimmedLine)) /\
    includes (extractCardNumber trimmedLine) "#" = false.
Proof.
  intros s. unfold extractCardNumber.
  destruct (matchCardNumber s) as [m|] eqn:E; [|split; [now left | reflexivity]].
  apply matchCardNumber_Some in E as [(a & b & -> & Hs)|(d & -> & Hs)].
  - pose proof (numberShape_no_hash _ Hs) as Hno.
    rewrite (replaceChar_absent _ _ Hno).
    split; [now right | now apply includes_char_absent].
  - simpl replaceChar.
    split; [now right|].
    now apply includes_char_absent, numberShape_no_hash.
Qed.

(* ================================================================== *)
(** * Further properties of the OCR service *)

(** ** [normalizeCondition] *)

Lemma startsWith_head (s a b : string) :
  startsWith s (a ++ b) = true -> startsWith s a = true.
Proof.
  revert s. induction a as [|c a IH]; intros s H; [reflexivity|].
  simpl in *. destruct s as [|x s]; [discriminate|].
  apply andb_true_iff in H as [Hx Hs]. now rewrite Hx, (IH _ Hs).
Qed.

(** A string that contains [a ++ b] contains [a]. *)
Lemma includes_head (a b s : string) :
  includes s (a ++ b) = true -> includes s a = true.
Proof.
  induction s as [|c s IH]; simpl; intros H.
  - rewrite orb_false_r in *. now apply startsWith_head in H.
  - apply orb_true_iff in H as [H|H].
    + apply startsWith_head in H. simpl in H. now rewrite H.
    + rewrite (IH H). apply orb_true_r.
Qed.

(** X10.  The OCR normalizer reads every text that contains "near mint"
    (letter case and outer white space set aside) as Near Mint. *)
Theorem normalizeCondition_near_mint_text :
  forall condition : string,
    includes (trim (toLowerCase condition)) "near mint" = true ->
    OCRService.normalizeCondition (Some condition) = Some NearMint.
Proof.
  intros s H. unfold OCRService.normalizeCondition.
  assert (Ht : truthy s = true) by (destruct s; [discriminate | reflexivity]).
  rewrite Ht. cbn [negb].
  rewrite (includes_head "near" " mint" _ H), H. cbn [negb].
  now rewrite andb_false_r.
Qed.

Lemma normalizeCondition_near_mint_text_witness :
  includes (trim (toLowerCase " Near Mint (NM) ")) "near mint" = true /\
  OCRService.normalizeCondition (Some " Near Mint (NM) ") = Some NearMint.
Proof.
  assert (H : includes (trim (toLowerCase " Near Mint (NM) ")) "near mint" = true)
    by reflexivity.
  split; [exact H|].
  exact (normalizeCondition_near_mint_text _ H).
Defined.

(** X11.  The normalizer maps each of the five condition labels back to
    its condition, whatever the letter case and the white space around it,
    and answers undefined for a missing or empty text. *)
Theorem normalizeCondition_labels :
  (forall (c : CardCondition) (condition : string),
     trim (toLowerCase condition) = toLowerCase (CardCondition_label c) ->
     OCRService.normalizeCondition (Some condition) = Some c) /\
  OCRService.normalizeCondition None = None /\
  OCRService.normalizeCondition (Some EmptyString) = None.
Proof.
  split; [|split; reflexivity].
  intros c s H. unfold OCRService.normalizeCondition.
  assert (Ht : truthy s = true) by (destruct s; [now destruct c | reflexivity]).
  rewrite Ht, H. now destruct c.
Qed.

Lemma normalizeCondition_labels_witness :
  trim (toLowerCase "  LIGHTLY played ") = toLowerCase (CardCondition_label LightlyPlayed) /\
  OCRService.normalizeCondition (Some "  LIGHTLY played ") = Some LightlyPlayed.
Proof.
  assert (H : trim (toLowerCase "  LIGHTLY played ")
              = toLowerCase (CardCondition_label LightlyPlayed)) by reflexivity.
  split; [exact H|].
  exact (proj1 normalizeCondition_labels LightlyPlayed _ H).
Defined.

(** ** [calculateConfidence] *)

Lemma calculateConfidence_range (cardName setName cardNumber : option string) :
  PrimFloat.leb 0.1 (OCRService.calculateConfidence cardName setName cardNumber) = true /\
  PrimFloat.leb (OCRService.calculateConfidence cardName setName cardNumber) 1 = true.
Proof.
  unfold OCRService.calculateConfidence.
  destruct cardName as [n|];
    [destruct (truthy n); [destruct (OCRService.mentionsKnownPokemon n)|] |];
  (destruct (OCRService.given setName));
  (destruct cardNumber as [k|];
    [destruct (truthy k); [destruct (includes k "/")|] |]);
  vm_compute; split; reflexivity.
Qed.

(** X12.  Confidence is monotone in the evidence: leaving out the card
    name, the set name or the card number never raises it, and it is never
    below 0.1. *)
Theorem calculateConfidence_monotone :
  forall cardName setName cardNumber : option string,
    let r := OCRService.calculateConfidence cardName setName cardNumber in
    PrimFloat.leb (OCRService.calculateConfidence None setName cardNumber) r = true /\
    PrimFloat.leb (OCRService.calculateConfidence cardName None cardNumber) r = true /\
    PrimFloat.leb (OCRService.calculateConfidence cardName setName None) r = true /\
    PrimFloat.leb 0.1 r = true.
Proof.
  intros cardName setName cardNumber r. subst r.
  unfold OCRService.calculateConfidence.
  destruct cardName as [n|];
    [destruct (truthy n); [destruct (OCRService.mentionsKnownPokemon n)|] |];
  (destruct setName as [t|]; [simpl OCRService.given; destruct (truthy t)|]);
  (destruct cardNumber as [k|];
    [destruct (truthy k); [destruct (includes k "/")|] |]);
  vm_compute; repeat split.
Qed.

(** ** [extractCardInfo] *)

(** X13.  Whatever the regular-expression engine finds: no OCR result
    gives no detection; otherwise there is one detection per card name
    found and at least one; every detection has a confidence between 0.1 and
    1 and carries the bounding box of the first OCR result. *)
Theorem extractCardInfo_detections :
  forall (stringMatch : string -> OCRService.RegExp -> option (list string))
         (ocrResults : list OCRService.OCRResult),
    let allText :=
      toLowerCase (String.concat " " (map OCRService.text ocrResults)) in
    let detections := OCRService.extractCardInfo stringMatch ocrResults in
    List.length detections
    = match ocrResults with
      | [] => 0
      | _ :: _ =>
          Nat.max
            (List.length
               (OCRService.collectMatches stringMatch allText
                  OCRService.cardNamePatterns))
            1
      end /\
    Forall
      (fun d =>
         PrimFloat.leb 0.1 (OCRService.confidence d) = true /\
         PrimFloat.leb (OCRService.confidence d) 1 = true /\
         OCRService.boundingBox d
         = match ocrResults with
           | first :: _ => OCRService.ocrBoundingBox first
           | [] => None
           end)
      detections.
Proof.
  intros stringMatch ocrResults allText detections. subst detections.
  unfold OCRService.extractCardInfo.
  destruct ocrResults as [|first rest]; [split; [reflexivity | constructor]|].
  cbn [List.length Nat.eqb]. fold allText. split.
  - now rewrite length_map, length_seq.
  - apply Forall_forall. intros d Hd.
    apply in_map_iff in Hd as (i & <- & _). cbn.
    destruct (calculateConfidence_range
                (nth_error (OCRService.collectMatches stringMatch allText
                              OCRService.cardNamePatterns) i)
                (nth_error (OCRService.collectMatches stringMatch allText
                              OCRService.setPatterns) i)
                (nth_error (OCRService.collectMatches stringMatch allText
                              OCRService.numberPatterns) i)) as [H1 H2].
    repeat split; assumption.
Qed.

(** ** [validateImage] *)

Lemma Buffer_equals_eq (a b : OCRService.Buffer) :
  OCRService.Buffer_equals a b = true <-> a = b.
Proof.
  revert b. induction a as [|x a IH]; intros [|y b]; simpl; split;
    try discriminate; try reflexivity.
  - intros H. apply andb_true_iff in H as [Hx Ha].
    apply Byte.byte_dec_bl in Hx. apply IH in Ha. now subst.
  - intros H. inversion H; subst.
    rewrite (Byte.byte_dec_lb (eq_refl y)). now apply IH.
Qed.

(** The first bytes of a buffer equal a signature exactly when the buffer
    is the signature followed by something. *)
Lemma subarray_prefix (n : nat) (signature buf : OCRService.Buffer) :
  List.length signature = n ->
  OCRService.Buffer_equals (OCRService.subarray 0 n buf) signature = true
  <-> exists rest, buf = (signature ++ rest)%list.
Proof.
  intros Hn. unfold OCRService.subarray. rewrite Nat.sub_0_r. simpl skipn.
  rewrite Buffer_equals_eq. split.
  - intros H. exists (skipn n buf). now rewrite <- H, firstn_skipn.
  - intros [rest ->]. subst n. rewrite firstn_app, Nat.sub_diag, firstn_all.
    simpl. apply app_nil_r.
Qed.

Lemma subarray_middle (signature buf : OCRService.Buffer) :
  List.length signature = 4 ->
  OCRService.Buffer_equals (OCRService.subarray 8 12 buf) signature = true
  <-> exists before rest,
        List.length before = 8 /\ buf = (before ++ signature ++ rest)%list.
Proof.
  intros Hn. unfold OCRService.subarray. change (12 - 8) with 4.
  rewrite Buffer_equals_eq. split.
  - intros H. exists (firstn 8 buf), (skipn 4 (skipn 8 buf)).
    assert (Hlen : List.length (firstn 4 (skipn 8 buf)) = 4)
      by (rewrite H; exact Hn).
    rewrite length_firstn, length_skipn in Hlen.
    split; [rewrite length_firstn; lia|].
    rewrite <- H, firstn_skipn, firstn_skipn. reflexivity.
  - intros (before & rest & Hb & ->).
    rewrite skipn_app, Hb, Nat.sub_diag, (skipn_all2 before) by lia.
    cbn [skipn app].
    rewrite <- Hn, firstn_app, Nat.sub_diag, firstn_all. cbn [firstn].
    apply app_nil_r.
Qed.

(** X14.  [validateImage] accepts exactly the buffers of at most 10 MiB
    that start with the PNG signature, with the JPEG marker FF D8, or with
    "RIFF", four more bytes and "WEBP"; on every other buffer, the empty one
    included, it throws an [InvalidImageError]. *)
Theorem validateImage_accepts :
  forall imageBuffer : OCRService.Buffer,
    (OCRService.validateImage imageBuffer = Errors.Returns tt
     <->
     (Z.of_nat (List.length imageBuffer) <= 10485760)%Z /\
     ((exists rest, imageBuffer = (OCRService.pngSignature ++ rest)%list)
      \/ (exists rest, imageBuffer = (OCRService.jpegSignature ++ rest)%list)
      \/ (exists size rest,
            List.length size = 4
            /\ imageBuffer
               = (OCRService.riffSignature ++ size
                  ++ OCRService.webpSignature ++ rest)%list)))
    /\
    (OCRService.validateImage imageBuffer = Errors.Returns tt
     \/ exists message,
          OCRService.validateImage imageBuffer
          = Errors.Throws (Errors.InvalidImageError message)).
Proof.
  intros buf.
  pose proof (subarray_prefix 8 OCRService.pngSignature buf eq_refl) as Hpng.
  pose proof (subarray_prefix 2 OCRService.jpegSignature buf eq_refl) as Hjpg.
  pose proof (subarray_prefix 4 OCRService.riffSignature buf eq_refl) as Hriff.
  pose proof (subarray_middle OCRService.webpSignature buf eq_refl) as Hwebp.
  assert (Hweb : OCRService.Buffer_equals (OCRService.subarray 0 4 buf)
                   OCRService.riffSignature
                 && OCRService.Buffer_equals (OCRService.subarray 8 12 buf)
                      OCRService.webpSignature = true
                 <-> exists size rest,
                       List.length size = 4
                       /\ buf = (OCRService.riffSignature ++ size
                                 ++ OCRService.webpSignature ++ rest)%list).
  { rewrite andb_true_iff, Hriff, Hwebp. split.
    - intros [[r1 H1] (before & rest & Hb & H2)].
      assert (E : before = (OCRService.riffSignature ++ firstn 4 (skipn 4 before))%list).
      { rewrite H2 in H1.
        assert (E8 : firstn 4 before = OCRService.riffSignature).
        { apply (f_equal (firstn 4)) in H1.
          rewrite firstn_app in H1.
          replace (4 - List.length before) with 0 in H1 by lia.
          rewrite firstn_O, app_nil_r in H1. rewrite H1.
          rewrite firstn_app. simpl. reflexivity. }
        rewrite <- E8 at 1.
        rewrite <- (firstn_skipn 4 before) at 1. f_equal.
        rewrite firstn_all2; [reflexivity|]. rewrite length_skipn. lia. }
      exists (firstn 4 (skipn 4 before)), rest. split.
      + rewrite length_firstn, length_skipn. lia.
      + rewrite H2 at 1. rewrite E at 1. now rewrite <- app_assoc.
    - intros (size & rest & Hs & ->). split.
      + eexists. reflexivity.
      + exists (OCRService.riffSignature ++ size)%list, rest. split.
        * rewrite length_app, Hs. reflexivity.
        * now rewrite <- app_assoc. }
  unfold OCRService.validateImage.
  destruct buf as [|b0 buf'] eqn:Eb.
  - split; [|right; eexists; reflexivity].
    split; [discriminate|].
    intros [_ [[r H]|[[r H]|(sz & r & _ & H)]]]; discriminate.
  - rewrite <- Eb in *. replace (List.length buf =? 0) with false
      by (rewrite Eb; reflexivity).
    change (10 * 1024 * 1024)%Z with 10485760%Z.
    destruct (Z.gtb_spec (Z.of_nat (List.length buf)) 10485760) as [Hbig|Hok].
    + split; [|right; eexists; reflexivity].
      split; [discriminate | intros [Hle _]; lia].
    + destruct (OCRService.Buffer_equals (OCRService.subarray 0 8 buf)
                  OCRService.pngSignature) eqn:Ep.
      { split; [|now left]. split; [|reflexivity].
        intros _. split; [exact Hok|]. left. now apply Hpng. }
      destruct (OCRService.Buffer_equals (OCRService.subarray 0 2 buf)
                  OCRService.jpegSignature) eqn:Ej.
      { split; [|now left]. split; [|reflexivity].
        intros _. split; [exact Hok|]. right. left. now apply Hjpg. }
      destruct (OCRService.Buffer_equals (OCRService.subarray 0 4 buf)
                  OCRService.riffSignature
                && OCRService.Buffer_equals (OCRService.subarray 8 12 buf)
                     OCRService.webpSignature) eqn:Ew.
      { split; [|now left]. split; [|reflexivity].
        intros _. split; [exact Hok|]. right. right. now apply Hweb. }
      cbn [negb andb].
      split; [|right; eexists; reflexivity].
      split; [discriminate|].
      intros [_ [H|[H|H]]].
      * apply Hpng in H. congruence.
      * apply Hjpg in H. congruence.
      * apply Hweb in H. congruence.
Qed.

(** ** [cleanOCRText] *)

Section CleanOCRText.

Let headNotWhiteSpace (s : string) : bool :=
  match s with
  | EmptyString => true
  | String c _ => negb (isWhiteSpace c)
  end.

Lemma removeChars_all (keep : ascii -> bool) (s : string) :
  allChars keep (removeChars keep s) = true.
Proof.
  induction s as [|c s IH]; [reflexivity|]. simpl.
  destruct (keep c) eqn:K; [simpl; now rewrite K | exact IH].
Qed.

Lemma removeChars_fixed (keep : ascii -> bool) (s : string) :
  allChars keep s = true -> removeChars keep s = s.
Proof.
  induction s as [|c s IH]; [reflexivity|]. simpl. intros H.
  apply andb_true_iff in H as [Hc Hs]. now rewrite Hc, (IH Hs).
Qed.

Lemma isCleanChar_kept (c : ascii) :
  OCRService.isCardTextChar c = true -> isWhiteSpace c = false ->
  isCleanChar c = true.
Proof. destruct c as [[] [] [] [] [] [] [] []]; (reflexivity || discriminate). Qed.

Lemma isCleanChar_inv (c : ascii) :
  isCleanChar c = true ->
  OCRService.isCardTextChar c = true
  /\ (isWhiteSpace c = true -> c = " "%char).
Proof.
  destruct c as [[] [] [] [] [] [] [] []]; try discriminate;
    (split; [reflexivity | (reflexivity || discriminate)]).
Qed.

Lemma collapseFrom_chars (s : string) :
  forall inRun : bool,
    allChars OCRService.isCardTextChar s = true ->
    allChars isCleanChar (collapseFrom inRun s) = true.
Proof.
  induction s as [|c s IH]; intros inRun H; [reflexivity|].
  simpl in H. apply andb_true_iff in H as [Hc Hs]. simpl.
  destruct (isWhiteSpace c) eqn:W.
  - destruct inRun; [now apply IH|]. simpl. now apply IH.
  - simpl. now rewrite (isCleanChar_kept c Hc W), (IH false Hs).
Qed.

Lemma collapseFrom_runs (s : string) :
  forall inRun : bool,
    noWhiteSpaceRun (collapseFrom inRun s) = true
    /\ (inRun = true -> headNotWhiteSpace (collapseFrom inRun s) = true).
Proof.
  induction s as [|c s IH]; intros inRun; [split; reflexivity|].
  simpl. destruct (isWhiteSpace c) eqn:W.
  - destruct inRun.
    + apply IH.
    + destruct (IH true) as [Hr Hh]. specialize (Hh eq_refl).
      split; [|discriminate].
      cbn [noWhiteSpaceRun]. rewrite Hr.
      unfold headNotWhiteSpace in Hh.
      destruct (collapseFrom true s) as [|d t]; [reflexivity|].
      apply negb_true_iff in Hh. rewrite Hh. reflexivity.
  - destruct (IH false) as [Hr _]. split.
    + cbn [noWhiteSpaceRun]. rewrite Hr, W.
      now destruct (collapseFrom false s).
    + intros _. simpl. now rewrite W.
Qed.

Lemma collapseFrom_fixed (s : string) :
  allChars isCleanChar s = true -> noWhiteSpaceRun s = true ->
  collapseFrom false s = s.
Proof.
  induction s as [|c s IH]; intros Hc Hr; [reflexivity|].
  simpl in Hc. apply andb_true_iff in Hc as [Hc Hs].
  cbn [noWhiteSpaceRun] in Hr. apply andb_true_iff in Hr as [Hh Hr].
  specialize (IH Hs Hr). simpl.
  destruct (isWhiteSpace c) eqn:W.
  - destruct (isCleanChar_inv c Hc) as [_ Hsp]. rewrite (Hsp W). f_equal.
    destruct s as [|d t]; [reflexivity|].
    simpl in Hh. simpl in IH |- *.
    destruct (isWhiteSpace d); [discriminate | exact IH].
  - now rewrite IH.
Qed.

Lemma allChars_trimStart (p : ascii -> bool) (s : string) :
  allChars p s = true -> allChars p (trimStart s) = true.
Proof.
  induction s as [|c s IH]; [reflexivity|]. simpl. intros H.
  apply andb_true_iff in H as [Hc Hs].
  destruct (isWhiteSpace c); [now apply IH | simpl; now rewrite Hc, Hs].
Qed.

Lemma allChars_trimEnd (p : ascii -> bool) (s : string) :
  allChars p s = true -> allChars p (trimEnd s) = true.
Proof.
  induction s as [|c s IH]; [reflexivity|]. simpl. intros H.
  apply andb_true_iff in H as [Hc Hs]. specialize (IH Hs).
  destruct (trimEnd s).
  - destruct (isWhiteSpace c); [reflexivity | simpl; now rewrite Hc].
  - simpl in *. now rewrite Hc, IH.
Qed.

Lemma noWhiteSpaceRun_trimStart (s : string) :
  noWhiteSpaceRun s = true -> noWhiteSpaceRun (trimStart s) = true.
Proof.
  induction s as [|c s IH]; [reflexivity|]. intros H.
  cbn [trimStart]. destruct (isWhiteSpace c); [|exact H].
  cbn [noWhiteSpaceRun] in H. apply andb_true_iff in H as [_ H]. now apply IH.
Qed.

Lemma trimEnd_cons (s : string) (d : ascii) (r : string) :
  trimEnd s = String d r -> exists t, s = String d t.
Proof.
  destruct s as [|c s]; [discriminate|]. simpl.
  destruct (trimEnd s).
  - destruct (isWhiteSpace c); [discriminate|].
    intros H; inversion H. now exists s.
  - intros H; inversion H. now exists s.
Qed.

Lemma noWhiteSpaceRun_trimEnd (s : string) :
  noWhiteSpaceRun s = true -> noWhiteSpaceRun (trimEnd s) = true.
Proof.
  induction s as [|c s IH]; [reflexivity|]. intros H.
  cbn [noWhiteSpaceRun] in H. apply andb_true_iff in H as [Hh Hr].
  specialize (IH Hr). cbn [trimEnd].
  destruct (trimEnd s) as [|d r] eqn:E.
  - now destruct (isWhiteSpace c).
  - destruct (trimEnd_cons s d r E) as [t ->].
    cbn [noWhiteSpaceRun]. cbn [noWhiteSpaceRun] in IH. now rewrite Hh, IH.
Qed.

(** X15.  The cleaned text holds only word characters, slashes, hyphens,
    full stops and spaces, with no two spaces in a row and none at either
    end; cleaning it again changes nothing. *)
Theorem cleanOCRText_clean :
  forall text : string,
    allChars isCleanChar (OCRService.cleanOCRText text) = true /\
    noWhiteSpaceRun (OCRService.cleanOCRText text) = true /\
    trim (OCRService.cleanOCRText text) = OCRService.cleanOCRText text /\
    OCRService.cleanOCRText (OCRService.cleanOCRText text)
    = OCRService.cleanOCRText text.
Proof.
  intros text.
  assert (Hc : allChars isCleanChar (OCRService.cleanOCRText text) = true).
  { unfold OCRService.cleanOCRText, trim, collapseWhiteSpace.
    apply allChars_trimEnd, allChars_trimStart, collapseFrom_chars,
      removeChars_all. }
  assert (Hr : noWhiteSpaceRun (OCRService.cleanOCRText text) = true).
  { unfold OCRService.cleanOCRText, trim, collapseWhiteSpace.
    apply noWhiteSpaceRun_trimEnd, noWhiteSpaceRun_trimStart, collapseFrom_runs. }
  assert (Ht : trim (OCRService.cleanOCRText text) = OCRService.cleanOCRText text)
    by apply trim_idempotent.
  repeat split; try assumption.
  unfold OCRService.cleanOCRText at 1.
  rewrite removeChars_fixed.
  - unfold collapseWhiteSpace. now rewrite (collapseFrom_fixed _ Hc Hr).
  - revert Hc. apply allChars_impl. intros c H. now apply isCleanChar_inv in H.
Qed.

End CleanOCRText.

(* ================================================================== *)
(** * Properties of lib/errors.ts *)

(** ** Anchored patterns *)

Section Patterns.

Import JsRegExp.

Lemma append_nil_inv (a b : string) :
  a ++ b = EmptyString -> a = EmptyString /\ b = EmptyString.
Proof. destruct a; simpl; [intros H; now subst | discriminate]. Qed.

Lemma append_nil_r (a : string) : a ++ EmptyString = a.
Proof. induction a as [|c a IH]; [reflexivity | simpl; now rewrite IH]. Qed.

Lemma nullable_lang (r : regex) : nullable r = true <-> lang r EmptyString.
Proof.
  split.
  - induction r; simpl; intros H; try discriminate.
    + constructor.
    + apply andb_true_iff in H as [H1 H2].
      change EmptyString with (EmptyString ++ EmptyString). constructor; auto.
    + apply orb_true_iff in H as [H|H]; [apply lang_Alt_l | apply lang_Alt_r]; auto.
    + constructor.
  - intros H. remember EmptyString as s eqn:Es.
    induction H; simpl; try discriminate; try reflexivity.
    + apply append_nil_inv in Es as [-> ->]. now rewrite IHlang1, IHlang2.
    + now rewrite IHlang.
    + rewrite IHlang; [apply orb_true_r | assumption].
Qed.

Lemma lang_Seq_inv (r1 r2 : regex) (s : string) :
  lang (Seq r1 r2) s <-> exists s1 s2, s = s1 ++ s2 /\ lang r1 s1 /\ lang r2 s2.
Proof.
  split.
  - intros H; inversion H; subst. now exists s1, s2.
  - intros (s1 & s2 & -> & H1 & H2). now constructor.
Qed.

Lemma lang_Alt_inv (r1 r2 : regex) (s : string) :
  lang (Alt r1 r2) s <-> lang r1 s \/ lang r2 s.
Proof.
  split.
  - intros H; inversion H; subst; [now left | now right].
  - intros [H|H]; [now apply lang_Alt_l | now apply lang_Alt_r].
Qed.

Lemma lang_Char_inv (p : ascii -> bool) (s : string) :
  lang (Char p) s <-> exists c, s = String c EmptyString /\ p c = true.
Proof.
  split.
  - intros H; inversion H; subst. now exists c.
  - intros (c & -> & H). now constructor.
Qed.

Lemma derive_sound (c : ascii) (r : regex) :
  forall s, lang (derive c r) s -> lang r (String c s).
Proof.
  induction r; simpl; intros s H.
  - inversion H.
  - inversion H.
  - destruct (p c) eqn:P; inversion H; subst. now constructor.
  - destruct (nullable r1) eqn:N.
    + apply lang_Alt_inv in H as [H|H].
      * apply lang_Seq_inv in H as (s1 & s2 & -> & H1 & H2).
        change (String c (s1 ++ s2)) with (String c s1 ++ s2). constructor; auto.
      * change (String c s) with (EmptyString ++ String c s).
        constructor; [now apply nullable_lang | auto].
    + apply lang_Seq_inv in H as (s1 & s2 & -> & H1 & H2).
      change (String c (s1 ++ s2)) with (String c s1 ++ s2). constructor; auto.
  - apply lang_Alt_inv in H as [H|H]; [apply lang_Alt_l | apply lang_Alt_r]; auto.
  - apply lang_Seq_inv in H as (s1 & s2 & -> & H1 & H2).
    change (String c (s1 ++ s2)) with (String c s1 ++ s2). constructor; auto.
Qed.

Lemma derive_complete (r : regex) (t : string) :
  lang r t -> forall c s, t = String c s -> lang (derive c r) s.
Proof.
  induction 1; intros c0 s0 E; simpl.
  - discriminate.
  - inversion E; subst. rewrite H. constructor.
  - destruct s1 as [|x s1].
    + simpl in E. subst s2.
      assert (N : nullable r1 = true) by now apply nullable_lang.
      rewrite N. apply lang_Alt_r. now apply IHlang2.
    + simpl in E. inversion E; subst.
      assert (L : lang (Seq (derive c0 r1) r2) (s1 ++ s2))
        by (constructor; [now apply IHlang1 | assumption]).
      destruct (nullable r1); [now apply lang_Alt_l | exact L].
  - apply lang_Alt_l. now apply IHlang.
  - apply lang_Alt_r. now apply IHlang.
  - discriminate.
  - destruct s1 as [|x s1].
    + simpl in E. now apply IHlang2.
    + simpl in E. inversion E; subst.
      constructor; [now apply IHlang1 | assumption].
Qed.

(** [test] decides membership in the language of the pattern. *)
Lemma test_lang (s : string) : forall r, test r s = true <-> lang r s.
Proof.
  induction s as [|c s IH]; intros r; simpl.
  - apply nullable_lang.
  - rewrite IH. split; [apply derive_sound|].
    intros H. now apply (derive_complete r _ H).
Qed.

Lemma lang_Star_Char (p : ascii -> bool) (s : string) :
  lang (Star (Char p)) s <-> allChars p s = true.
Proof.
  split.
  - intros H. remember (Star (Char p)) as r eqn:Er.
    induction H; inversion Er; subst; [reflexivity|].
    apply lang_Char_inv in H as (c & -> & Hc). simpl.
    rewrite Hc. now apply IHlang2.
  - induction s as [|c s IH]; simpl; intros H; [constructor|].
    apply andb_true_iff in H as [Hc Hs].
    change (String c s) with (String c EmptyString ++ s).
    constructor; [now constructor | now apply IH].
Qed.

(** [[...]+]: a non-empty run of characters of the class. *)
Lemma lang_Plus_Char (p : ascii -> bool) (s : string) :
  lang (Plus (Char p)) s <-> truthy s = true /\ allChars p s = true.
Proof.
  unfold Plus. rewrite lang_Seq_inv. split.
  - intros (s1 & s2 & -> & H1 & H2).
    apply lang_Char_inv in H1 as (c & -> & Hc). apply lang_Star_Char in H2.
    simpl. now rewrite Hc, H2.
  - destruct s as [|c s]; [intros [H _]; discriminate|].
    simpl. intros [_ H]. apply andb_true_iff in H as [Hc Hs].
    exists (String c EmptyString), s. repeat split.
    + now constructor.
    + now apply lang_Star_Char.
Qed.

(** [[...]{n}]: exactly [n] characters of the class. *)
Lemma lang_Times_Char (p : ascii -> bool) (n : nat) :
  forall s, lang (Times n (Char p)) s
            <-> String.length s = n /\ allChars p s = true.
Proof.
  induction n as [|n IH]; intros s; simpl.
  - split.
    + intros H; inversion H; subst. now split.
    + intros [H _]. destruct s; [constructor | discriminate].
  - rewrite lang_Seq_inv. split.
    + intros (s1 & s2 & -> & H1 & H2).
      apply lang_Char_inv in H1 as (c & -> & Hc). apply IH in H2 as [Hl Ha].
      simpl. now rewrite Hl, Hc, Ha.
    + destruct s as [|c s]; [intros [H _]; discriminate|].
      simpl. intros [Hl H]. apply andb_true_iff in H as [Hc Hs].
      exists (String c EmptyString), s. repeat split.
      * now constructor.
      * apply IH. split; [lia | assumption].
Qed.

End Patterns.

(** ** [validateEmail] and [validateZipCode] *)

(** X16.  [validateEmail] accepts exactly the strings of the form
    local@domain.tail in which the three parts are non-empty and free of
    white space (the class [\s]: tab, LF, VT, FF, CR, space, no-break space)
    and of further at-signs; the domain and the tail may hold dots. *)
Theorem validateEmail_accepts :
  forall email : string,
    Errors.validateEmail email = true
    <-> exists a b c,
          email = a ++ "@" ++ b ++ "." ++ c /\
          truthy a = true /\ allChars Errors.notSpaceNorAt a = true /\
          truthy b = true /\ allChars Errors.notSpaceNorAt b = true /\
          truthy c = true /\ allChars Errors.notSpaceNorAt c = true.
Proof.
  intros email. unfold Errors.validateEmail, Errors.emailRegex.
  rewrite test_lang. split.
  - intros H.
    apply lang_Seq_inv in H as (a & r1 & -> & Ha & H).
    apply lang_Seq_inv in H as (x & r2 & -> & Hx & H).
    apply lang_Seq_inv in H as (b & r3 & -> & Hb & H).
    apply lang_Seq_inv in H as (y & c & -> & Hy & Hc).
    apply lang_Plus_Char in Ha as [Ta Aa].
    apply lang_Plus_Char in Hb as [Tb Ab].
    apply lang_Plus_Char in Hc as [Tc Ac].
    apply lang_Char_inv in Hx as (cx & -> & Ex). apply Ascii.eqb_eq in Ex. subst cx.
    apply lang_Char_inv in Hy as (cy & -> & Ey). apply Ascii.eqb_eq in Ey. subst cy.
    exists a, b, c. repeat split; assumption.
  - intros (a & b & c & -> & Ta & Aa & Tb & Ab & Tc & Ac).
    constructor; [now apply lang_Plus_Char|].
    change ("@" ++ b ++ "." ++ c) with (String "@"%char EmptyString ++ (b ++ "." ++ c)).
    constructor; [now constructor|].
    constructor; [now apply lang_Plus_Char|].
    change ("." ++ c) with (String "."%char EmptyString ++ c).
    constructor; [now constructor | now apply lang_Plus_Char].
Qed.

(** X17.  [validateZipCode] accepts exactly five digits, optionally
    followed by a hyphen and four digits. *)
Theorem validateZipCode_accepts :
  forall zipCode : string,
    Errors.validateZipCode zipCode = true
    <-> exists d rest,
          zipCode = d ++ rest /\
          String.length d = 5 /\ allChars isDigit d = true /\
          (rest = EmptyString
           \/ exists e, rest = "-" ++ e
                        /\ String.length e = 4 /\ allChars isDigit e = true).
Proof.
  intros zipCode. unfold Errors.validateZipCode, Errors.zipRegex.
  rewrite test_lang. split.
  - intros H.
    apply lang_Seq_inv in H as (d & rest & -> & Hd & H).
    apply lang_Times_Char in Hd as [Ld Ad].
    exists d, rest. repeat split; try assumption.
    apply lang_Alt_inv in H as [H|H]; [right | left; now inversion H].
    apply lang_Seq_inv in H as (x & e & -> & Hx & He).
    apply lang_Char_inv in Hx as (cx & -> & Ex). apply Ascii.eqb_eq in Ex. subst cx.
    apply lang_Times_Char in He as [Le Ae].
    exists e. repeat split; assumption.
  - intros (d & rest & -> & Ld & Ad & Hrest).
    constructor; [now apply lang_Times_Char|].
    destruct Hrest as [->|(e & -> & Le & Ae)].
    + apply JsRegExp.lang_Alt_r. constructor.
    + apply JsRegExp.lang_Alt_l.
      change ("-" ++ e) with (String "-"%char EmptyString ++ e).
      constructor; [now constructor | now apply lang_Times_Char].
Qed.

(** ** Messages shown to the user *)

(** X18.  Whatever is thrown, the message shown for it is one of the ten
    fixed friendly messages, never the raw message of the error; for
    anything that is not an [AppError] it is the one of PROCESSING_ERROR. *)
Theorem friendly_message_for_every_error :
  forall error : Errors.Thrown,
    (exists friendly,
       Errors.getUserFriendlyMessage (Errors.handleError error)
       = Errors.OwnString friendly /\
       In friendly (map snd Errors.friendlyMessages)) /\
    match error with
    | Errors.ThrownAppError _ => True
    | _ =>
        Errors.getUserFriendlyMessage (Errors.handleError error)
        = Errors.OwnString
            "We encountered an issue processing your request. Please try again."
    end.
Proof.
  intros [e|m|]; (split; [|try exact I; try reflexivity]).
  - destruct e as [m c sc op f].
    destruct c; eexists; (split; [reflexivity | cbv; tauto]).
  - eexists; (split; [reflexivity | cbv; tauto]).
  - eexists; (split; [reflexivity | cbv; tauto]).
Qed.

(** X19.  For a code that is not a member of [ErrorCode] the lookup finds
    no friendly message: the message of the error itself is shown, unless
    the code names a member inherited from [Object.prototype] (such as
    "constructor" or "toString"), in which case that member is returned in
    place of a message. *)
Theorem getUserFriendlyMessage_unknown_code :
  forall error : Errors.ErrorDetails,
    (forall c, Errors.ErrorCode_value c <> Errors.detailsCode error) ->
    Errors.getUserFriendlyMessage error
    = if existsb (String.eqb (Errors.detailsCode error))
           Errors.objectPrototypeProperties
      then Errors.Inherited (Errors.detailsCode error)
      else Errors.OwnString (Errors.detailsMessage error).
Proof.
  intros error H.
  unfold Errors.getUserFriendlyMessage, Errors.getProperty, Errors.friendlyMessages.
  cbn [Errors.lookup].
  repeat match goal with
  | |- context [String.eqb (Errors.ErrorCode_value ?c) ?k] =>
      destruct (String.eqb_spec (Errors.ErrorCode_value c) k) as [E|_];
      [now destruct (H c)|]
  end.
  now destruct (existsb (String.eqb (Errors.detailsCode error))
                  Errors.objectPrototypeProperties).
Qed.

Lemma getUserFriendlyMessage_unknown_code_witness :
  (forall c, Errors.ErrorCode_value c <> "TIMEOUT") /\
  Errors.getUserFriendlyMessage
    (Errors.mkErrorDetails "TIMEOUT" "The request timed out" None)
  = Errors.OwnString "The request timed out".
Proof.
  assert (H : forall c, Errors.ErrorCode_value c
                        <> Errors.detailsCode
                             (Errors.mkErrorDetails "TIMEOUT" "The request timed out" None))
    by (intros []; discriminate).
  split; [exact H|].
  exact (getUserFriendlyMessage_unknown_code _ H).
Defined.

(** ** [validateCardText] *)

Lemma length_zero_truthy (s : string) : (String.length s =? 0) = negb (truthy s).
Proof. now destruct s. Qed.

Lemma POSTIn_not_blank (db : list DbEntry.t) (text : string) (g : Rand.source) :
  blank text = false ->
  exists data, fst (POSTIn db (Some text) g) = Success data.
Proof.
  intros B.
  assert (Ht : truthy text = true) by (destruct text; [discriminate | reflexivity]).
  assert (Hne : linesOf text <> []).
  { intros E. apply linesOf_nil in E. congruence. }
  rewrite (POSTIn_lines db text g Ht Hne). fold (linesOf text).
  destruct (processLinesIn db (linesOf text) g) as [[cs us] g'].
  eexists. reflexivity.
Qed.

(** X20.  [validateCardText] accepts exactly the texts that are not blank
    (not made only of the white space [trim] removes, the no-break space
    included) and hold at most 10000 characters; it throws a [ValidationError] on the
    field "text" otherwise; and every text it accepts is one [POST] answers
    with success. *)
Theorem validateCardText_accepts :
  forall text : string,
    (Errors.validateCardText text = Errors.Returns tt
     <-> blank text = false /\ (Z.of_nat (String.length text) <= 10000)%Z) /\
    (Errors.validateCardText text = Errors.Returns tt
     \/ exists message,
          Errors.validateCardText text
          = Errors.Throws (Errors.ValidationError message (Some "text"))) /\
    (Errors.validateCardText text = Errors.Returns tt ->
     forall db g, exists data, fst (POSTIn db (Some text) g) = Success data).
Proof.
  intros text.
  assert (Hiff : Errors.validateCardText text = Errors.Returns tt
                 <-> blank text = false /\ (Z.of_nat (String.length text) <= 10000)%Z).
  { unfold Errors.validateCardText.
    rewrite length_zero_truthy, truthy_trim, negb_involutive.
    destruct (blank text) eqn:B.
    - rewrite orb_true_r. split; [discriminate | intros [H _]; discriminate].
    - assert (Ht : truthy text = true) by (destruct text; [discriminate | reflexivity]).
      rewrite Ht. cbn [negb orb].
      destruct (Z.gtb_spec (Z.of_nat (String.length text)) 10000) as [Hbig|Hok].
      + split; [discriminate | intros [_ H]; lia].
      + split; [intros _; split; [reflexivity | lia] | reflexivity]. }
  split; [exact Hiff|]. split.
  - unfold Errors.validateCardText.
    destruct (negb (truthy text) || (String.length (trim text) =? 0));
      [right; eexists; reflexivity|].
    destruct (Z.of_nat (String.length text) >? 10000)%Z;
      [right; eexists; reflexivity | now left].
  - intros H db g. apply Hiff in H as [B _]. now apply POSTIn_not_blank.
Qed.

(** ** [retryWithBackoff] *)

Section Retry.

Context {T E : Type}.
Variable fn : nat -> Errors.Settled T E.
Variable maxRetries : nat.
Variable baseDelay : float.

Let delay (attempt : nat) : float := (baseDelay * Math_pow2 attempt)%float.

(** The loop, entered at [attempt] after [attempt] calls, when the call
    number [j] is the first to be fulfilled. *)
Lemma retryLoop_success (j : nat) (value : T) :
  j < maxRetries ->
  fn j = Errors.Fulfilled value ->
  forall fuel attempt lastError ds,
    attempt + fuel = maxRetries ->
    attempt <= j ->
    (forall k, attempt <= k < j -> exists error, fn k = Errors.Rejected error) ->
    Errors.retryLoop fn maxRetries baseDelay fuel attempt lastError
      (Errors.mkRetryLog attempt ds)
    = (Errors.Fulfilled value,
       Errors.mkRetryLog (S j) (ds ++ map delay (seq attempt (j - attempt)))).
Proof.
  intros Hj Hv. induction fuel as [|fuel IH]; intros attempt lastError ds Hf Ha Hrej.
  - lia.
  - cbn [Errors.retryLoop].
    destruct (Nat.ltb_spec attempt maxRetries) as [_|Hge]; [|lia].
    cbn [Errors.calls Errors.delays].
    destruct (Nat.eq_dec attempt j) as [->|Hne].
    + rewrite Hv, Nat.sub_diag. simpl. now rewrite app_nil_r.
    + destruct (Hrej attempt) as [error Herr]; [lia|]. rewrite Herr.
      destruct (Z.eqb_spec (Z.of_nat attempt) (Z.of_nat maxRetries - 1)) as [Hz|_];
        [lia|].
      change (baseDelay * Math_pow2 attempt)%float with (delay attempt).
      rewrite (IH (S attempt) (Some error) (ds ++ [delay attempt])%list);
        [|lia|lia|intros k Hk; apply Hrej; lia].
      replace (j - attempt) with (S (j - S attempt)) by lia.
      simpl. now rewrite <- app_assoc.
Qed.

(** The loop when every call up to the last allowed one is rejected. *)
Lemma retryLoop_exhausted (error : nat -> E) :
  (forall k, k < maxRetries -> fn k = Errors.Rejected (error k)) ->
  forall fuel attempt lastError ds,
    attempt + fuel = maxRetries ->
    0 < fuel ->
    Errors.retryLoop fn maxRetries baseDelay fuel attempt lastError
      (Errors.mkRetryLog attempt ds)
    = (Errors.Rejected (Some (error (maxRetries - 1))),
       Errors.mkRetryLog maxRetries
         (ds ++ map delay (seq attempt (maxRetries - 1 - attempt)))).
Proof.
  intros Hrej. induction fuel as [|fuel IH]; intros attempt lastError ds Hf Hpos.
  - lia.
  - cbn [Errors.retryLoop].
    destruct (Nat.ltb_spec attempt maxRetries) as [_|Hge]; [|lia].
    cbn [Errors.calls Errors.delays].
    rewrite (Hrej attempt) by lia.
    destruct (Z.eqb_spec (Z.of_nat attempt) (Z.of_nat maxRetries - 1)) as [Hz|Hne].
    + assert (attempt = maxRetries - 1) as -> by lia.
      replace (maxRetries - 1 - (maxRetries - 1)) with 0 by lia.
      replace (S (maxRetries - 1)) with maxRetries by lia.
      simpl. now rewrite app_nil_r.
    + change (baseDelay * Math_pow2 attempt)%float with (delay attempt).
      rewrite (IH (S attempt) (Some (error attempt)) (ds ++ [delay attempt])%list);
        [|lia|lia].
      replace (maxRetries - 1 - attempt) with (S (maxRetries - 1 - S attempt)) by lia.
      simpl. now rewrite <- app_assoc.
Qed.

(** What the loop logs whatever [fn] does. *)
Lemma retryLoop_log :
  forall fuel attempt lastError ds,
    attempt + fuel = maxRetries ->
    let '(r, log) :=
      Errors.retryLoop fn maxRetries baseDelay fuel attempt lastError
        (Errors.mkRetryLog attempt ds) in
    (fuel = 0 -> r = Errors.Rejected lastError /\ Errors.calls log = attempt
                 /\ Errors.delays log = ds) /\
    (0 < fuel ->
     attempt < Errors.calls log <= maxRetries /\
     Errors.delays log
     = (ds ++ map delay (seq attempt (Errors.calls log - 1 - attempt)))%list /\
     r <> Errors.Rejected None).
Proof.
  induction fuel as [|fuel IH]; intros attempt lastError ds Hf.
  - simpl. split; [auto | lia].
  - cbn [Errors.retryLoop].
    destruct (Nat.ltb_spec attempt maxRetries) as [_|Hge]; [|lia].
    cbn [Errors.calls Errors.delays].
    destruct (fn attempt) as [value|error].
    + split; [discriminate|]. intros _. cbn [Errors.calls Errors.delays].
      replace (S attempt - 1 - attempt) with 0 by lia. simpl.
      rewrite app_nil_r. repeat split; [lia | lia | discriminate].
    + destruct (Z.eqb_spec (Z.of_nat attempt) (Z.of_nat maxRetries - 1)) as [Hz|Hne].
      * split; [discriminate|]. intros _. cbn [Errors.calls Errors.delays].
        replace (S attempt - 1 - attempt) with 0 by lia. simpl.
        rewrite app_nil_r. repeat split; [lia | lia | discriminate].
      * change (baseDelay * Math_pow2 attempt)%float with (delay attempt).
        specialize (IH (S attempt) (Some error) (ds ++ [delay attempt])%list).
        destruct (Errors.retryLoop fn maxRetries baseDelay fuel (S attempt)
                    (Some error)
                    (Errors.mkRetryLog (S attempt) (ds ++ [delay attempt])))
          as [r log].
        destruct IH as [_ IH]; [lia|].
        split; [discriminate|]. intros _.
        destruct IH as (Hc & Hd & Hr); [lia|].
        repeat split; [lia | lia | | exact Hr].
        rewrite Hd, <- app_assoc. f_equal.
        replace (Errors.calls log - 1 - attempt)
          with (S (Errors.calls log - 1 - S attempt)) by lia.
        reflexivity.
Qed.

End Retry.

(** X21.  When the call number j (counting from 0) is the first to be
    fulfilled and j is below [maxRetries], [retryWithBackoff] resolves with
    its value after exactly j + 1 calls, having waited
    baseDelay * 2^0, ..., baseDelay * 2^(j-1) in between. *)
Theorem retryWithBackoff_first_success :
  forall (T E : Type) (fn : nat -> Errors.Settled T E)
         (maxRetries : nat) (baseDelay : float) (j : nat) (value : T),
    j < maxRetries ->
    (forall k, k < j -> exists error, fn k = Errors.Rejected error) ->
    fn j = Errors.Fulfilled value ->
    Errors.retryWithBackoff fn maxRetries baseDelay
    = (Errors.Fulfilled value,
       Errors.mkRetryLog (S j)
         (map (fun k => (baseDelay * Math_pow2 k)%float) (seq 0 j))).
Proof.
  intros T E fn maxRetries baseDelay j value Hj Hrej Hv.
  unfold Errors.retryWithBackoff.
  rewrite (retryLoop_success fn maxRetries baseDelay j value Hj Hv
             maxRetries 0 None []); [|lia|lia|intros k Hk; apply Hrej; lia].
  now rewrite Nat.sub_0_r.
Qed.

Lemma retryWithBackoff_first_success_witness :
  2 < 3 /\
  Errors.retryWithBackoff
    (failsThenSucceeds 2 (fun k => k) "ok") 3 1000%float
  = (Errors.Fulfilled "ok", Errors.mkRetryLog 3 [1000%float; 2000%float]).
Proof.
  assert (Hj : 2 < 3) by lia.
  split; [exact Hj|].
  assert (Hrej : forall k, k < 2 ->
            exists error, failsThenSucceeds (T := string) 2 (fun k => k) "ok" k
                          = Errors.Rejected error).
  { intros k Hk. exists k. unfold failsThenSucceeds.
    destruct (Nat.ltb_spec k 2); [reflexivity | lia]. }
  exact (retryWithBackoff_first_success string nat
           (failsThenSucceeds 2 (fun k => k) "ok") 3 1000%float 2 "ok"
           Hj Hrej eq_refl).
Defined.

(** X22.  When each of the first [maxRetries] calls is rejected
    ([maxRetries] at least 1), [retryWithBackoff] rejects with the error of
    the last call, after exactly [maxRetries] calls and [maxRetries] - 1
    waits: it does not wait after the last failure. *)
Theorem retryWithBackoff_exhausted :
  forall (T E : Type) (fn : nat -> Errors.Settled T E)
         (maxRetries : nat) (baseDelay : float) (error : nat -> E),
    0 < maxRetries ->
    (forall k, k < maxRetries -> fn k = Errors.Rejected (error k)) ->
    Errors.retryWithBackoff fn maxRetries baseDelay
    = (Errors.Rejected (Some (error (maxRetries - 1))),
       Errors.mkRetryLog maxRetries
         (map (fun k => (baseDelay * Math_pow2 k)%float)
            (seq 0 (maxRetries - 1)))).
Proof.
  intros T E fn maxRetries baseDelay error Hpos Hrej.
  unfold Errors.retryWithBackoff.
  rewrite (retryLoop_exhausted fn maxRetries baseDelay error Hrej
             maxRetries 0 None []); [|lia|lia].
  now rewrite Nat.sub_0_r.
Qed.

Lemma retryWithBackoff_exhausted_witness :
  0 < 3 /\
  Errors.retryWithBackoff
    (failsThenSucceeds 5 (fun k => k) "ok") 3 1000%float
  = (Errors.Rejected (Some 2), Errors.mkRetryLog 3 [1000%float; 2000%float]).
Proof.
  assert (Hpos : 0 < 3) by lia.
  split; [exact Hpos|].
  assert (Hrej : forall k, k < 3 ->
            failsThenSucceeds (T := string) 5 (fun k => k) "ok" k
            = Errors.Rejected k).
  { intros k Hk. unfold failsThenSucceeds.
    destruct (Nat.ltb_spec k 5); [reflexivity | lia]. }
  exact (retryWithBackoff_exhausted string nat
           (failsThenSucceeds 5 (fun k => k) "ok") 3 1000%float (fun k => k)
           Hpos Hrej).
Defined.

(** X23.  Whatever [fn] does and for any integer [maxRetries],
    [retryWithBackoff] calls [fn] at most [maxRetries] times and waits once
    between two consecutive calls, the delay doubling each time; it calls
    [fn] at least once exactly when [maxRetries] is 1 or more; with
    [maxRetries] 0 or negative it throws [lastError] unassigned, that is
    [undefined]. *)
Theorem retryWithBackoff_log :
  forall (T E : Type) (fn : nat -> Errors.Settled T E)
         (maxRetries : Z) (baseDelay : float),
    let r := fst (Errors.retryWithBackoffInt fn maxRetries baseDelay) in
    let log := snd (Errors.retryWithBackoffInt fn maxRetries baseDelay) in
    (Z.of_nat (Errors.calls log) <= Z.max 0 maxRetries)%Z /\
    Errors.delays log
    = map (fun k => (baseDelay * Math_pow2 k)%float)
        (seq 0 (Errors.calls log - 1)) /\
    (Errors.calls log = 0 <-> (maxRetries <= 0)%Z) /\
    ((maxRetries <= 0)%Z -> r = Errors.Rejected None).
Proof.
  intros T E fn maxRetries baseDelay r log. subst r log.
  unfold Errors.retryWithBackoffInt, Errors.retryWithBackoff.
  pose proof (retryLoop_log fn (Z.to_nat maxRetries) baseDelay
                (Z.to_nat maxRetries) 0 None []
                (Nat.add_0_l (Z.to_nat maxRetries))) as H.
  destruct (Errors.retryLoop fn (Z.to_nat maxRetries) baseDelay
              (Z.to_nat maxRetries) 0 None (Errors.mkRetryLog 0 [])) as [r log].
  destruct H as [H0 Hpos]. simpl fst. simpl snd.
  destruct (Z.to_nat maxRetries) as [|n] eqn:En.
  - destruct (H0 eq_refl) as (-> & -> & ->). simpl.
    repeat split; auto; lia.
  - destruct Hpos as (Hc & Hd & Hr); [lia|].
    rewrite Hd, Nat.sub_0_r. simpl app.
    repeat split; try lia; try reflexivity.
Qed.

(** A promise rejected with [undefined] makes [retryWithBackoff] throw
    [undefined] as well, after one call when [maxRetries] is 1. *)
Example retryWithBackoff_rejected_with_undefined :
  Errors.retryWithBackoffInt (T := string)
    (fun _ => Errors.Rejected (@None string)) 1 1000%float
  = (Errors.Rejected (Some None), Errors.mkRetryLog 1 []).
Proof. reflexivity. Qed.

(* ================================================================== *)
(** * Growing the catalog *)

(** X24.  Entries appended to the catalog change the match of a line only
    by beating it: a matched line stays matched, to the same entry with the
    same score unless one of the new entries scores strictly higher, in which
    case it is matched to a new entry. *)
Theorem lineMatch_catalog_grows :
  forall (db extra : list DbEntry.t) (line : string) (e : DbEntry.t) (s : nat),
    lineMatch db line = Some (e, s) ->
    (lineMatch (db ++ extra) line = Some (e, s)
     /\ forall g, parseCardLineIn (db ++ extra) line g = parseCardLineIn db line g)
    \/ exists e' s',
         In e' extra /\ s < s' /\
         lineMatch (db ++ extra) line = Some (e', s').
Proof.
  intros db extra line e s H0.
  pose proof H0 as H.
  apply lineMatch_Some in H as (Ht & Hrun & Hs).
  set (lowerLine := toLowerCase (trim line)) in *.
  set (cardNumber := extractCardNumber (trim line)) in *.
  assert (Happ : findBestMatch (db ++ extra) lowerLine cardNumber
                 = fold_left (matchStep lowerLine cardNumber) extra (Some e, s)).
  { unfold findBestMatch in *. now rewrite fold_left_app, Hrun. }
  destruct (Nat.le_gt_cases
              (list_max (map (scoreCard lowerLine cardNumber) extra)) s) as [Hle|Hgt].
  - left.
    assert (Hm : lineMatch (db ++ extra) line = Some (e, s)).
    { apply lineMatch_Some. repeat split; try assumption.
      fold lowerLine cardNumber. rewrite Happ. apply loop_keeps.
      apply list_max_le in Hle. now rewrite Forall_map in Hle. }
    split; [exact Hm|].
    intros g. now rewrite !parseCardLineIn_eq, Hm, H0.
  - right.
    destruct (loop_first_max lowerLine cardNumber extra (Some e) s Hgt)
      as (pre & e' & post & Hex & He' & _ & _ & Hrun').
    exists e', (scoreCard lowerLine cardNumber e').
    split; [rewrite Hex; apply in_elt|]. split; [lia|].
    apply lineMatch_Some. repeat split; try assumption; [|lia].
    fold lowerLine cardNumber. now rewrite Happ.
Qed.

Lemma lineMatch_catalog_grows_witness :
  lineMatch MOCK_CARD_DATABASE "Charizard"
  = Some (DbEntry.mk 1 "Charizard" "Base Set" "4/102" 450.00
            [NearMint; LightlyPlayed; ModeratelyPlayed; HeavilyPlayed], 4) /\
  ((lineMatch (MOCK_CARD_DATABASE ++ oddPriceCatalog) "Charizard"
    = Some (DbEntry.mk 1 "Charizard" "Base Set" "4/102" 450.00
              [NearMint; LightlyPlayed; ModeratelyPlayed; HeavilyPlayed], 4)
    /\ forall g, parseCardLineIn (MOCK_CARD_DATABASE ++ oddPriceCatalog) "Charizard" g
                 = parseCardLineIn MOCK_CARD_DATABASE "Charizard" g)
   \/ exists e' s',
        In e' oddPriceCatalog /\ 4 < s' /\
        lineMatch (MOCK_CARD_DATABASE ++ oddPriceCatalog) "Charizard" = Some (e', s')).
Proof.
  assert (H : lineMatch MOCK_CARD_DATABASE "Charizard"
    = Some (DbEntry.mk 1 "Charizard" "Base Set" "4/102" 450.00
              [NearMint; LightlyPlayed; ModeratelyPlayed; HeavilyPlayed], 4))
    by reflexivity.
  split; [exact H|].
  exact (lineMatch_catalog_grows MOCK_CARD_DATABASE oddPriceCatalog _ _ _ H).
Defined.

(* ================================================================== *)
(** * The no-break space in the validators *)

(** U+00A0 belongs to [\s] and is stripped by [trim]: an address that holds
    it is refused, and a text made of it alone is an empty card list. *)
Example validators_no_break_space :
  Errors.validateEmail ("a" ++ String (ascii_of_nat 160) "b@c.d") = false /\
  Errors.validateEmail "ab@c.d" = true /\
  Errors.validateCardText (String (ascii_of_nat 160) EmptyString)
  = Errors.Throws (Errors.ValidationError "Card list cannot be empty" (Some "text")) /\
  OCRService.cleanOCRText ("a" ++ String (ascii_of_nat 160) "b") = "a b" /\
  toLowerCase (String (ascii_of_nat 201) EmptyString)
  = String (ascii_of_nat 233) EmptyString.
Proof. repeat split. Qed.
